(** * Mushroom Classifier front end: form controller and API client

    A shallow embedding of [src/App.tsx] (the form component, its three
    handlers and the result panel) and of [src/services/api.ts] (the three
    axios wrappers), followed by the properties of the specification that
    were checked against them.

    Conventions of the embedding.
    - A JavaScript string is a Rocq [string].  Feature names and option
      codes are ASCII words; [toUpperCase] is modelled on ASCII letters.
    - A plain JavaScript object with string values is the list of its own
      enumerable properties in insertion order, as [Object.entries] shows
      it.  Keys that are canonical array indices (which JavaScript orders
      first) do not occur among feature names and are not modelled.
    - A JavaScript number is an IEEE 754 binary64 value: Rocq's primitive
      [float], whose multiplication is the one of the hardware.
    - An [async] handler is a finite tree of effects ([Prog]): React state
      setters, console output and the awaited calls to the network.  The
      replies of the outside world are supplied by an [Env]. *)

From Stdlib Require Import String Ascii List ZArith Lia Bool.
From Stdlib Require Import Floats.PrimFloat Floats.FloatOps Floats.SpecFloat.
Import ListNotations.
Local Open Scope list_scope.
Local Open Scope string_scope.

(* ================================================================== *)
(** ** JavaScript strings *)
(* ================================================================== *)

Module Js.

(** [s.split(sep)] for a one-character separator.  The result is never
    empty: [''.split('-')] is [['']]. *)
Fixpoint split (sep : ascii) (s : string) : list string :=
  match s with
  | EmptyString => [EmptyString]
  | String c s' =>
      if Ascii.eqb c sep then EmptyString :: split sep s'
      else match split sep s' with
           | [] => [String c EmptyString]
           | w :: ws => String c w :: ws
           end
  end.

(** [xs.join(sep)] *)
Definition join (sep : string) (xs : list string) : string :=
  String.concat sep xs.

(** [s.charAt(0)]: the first character as a string, [''] when there is none. *)
Definition charAt0 (s : string) : string :=
  match s with
  | EmptyString => EmptyString
  | String c _ => String c EmptyString
  end.

(** [s.slice(1)] *)
Definition slice1 (s : string) : string :=
  match s with
  | EmptyString => EmptyString
  | String _ s' => s'
  end.

Definition is_lower (c : ascii) : bool :=
  let n := nat_of_ascii c in (97 <=? n)%nat && (n <=? 122)%nat.

Definition upper_ascii (c : ascii) : ascii :=
  if is_lower c then ascii_of_nat (nat_of_ascii c - 32) else c.

(** [s.toUpperCase()] on ASCII text: the letters [a] to [z] are
    capitalized and nothing else changes.  The case mapping of
    characters outside ASCII is not modelled. *)
Fixpoint toUpperCase (s : string) : string :=
  match s with
  | EmptyString => EmptyString
  | String c s' => String (upper_ascii c) (toUpperCase s')
  end.

(** Truthiness of a string: every string but [''] is truthy. *)
Definition truthy (s : string) : bool := negb (String.eqb s "").

(** [xs.includes(x)] on an array of strings. *)
Definition includes (xs : list string) (x : string) : bool :=
  existsb (String.eqb x) xs.

(* ------------------------------------------------------------------ *)
(** *** Plain objects with string keys *)

(** Own enumerable properties, in insertion order. *)
Definition obj (V : Type) : Type := list (string * V).

Definition entries {V} (o : obj V) : list (string * V) := o.
Definition keys {V} (o : obj V) : list string := map fst o.

(** [o[k]] restricted to own properties. *)
Fixpoint get {V} (o : obj V) (k : string) : option V :=
  match o with
  | [] => None
  | (k', v) :: o' => if String.eqb k k' then Some v else get o' k
  end.

(** [Object.prototype.hasOwnProperty.call(o, k)] *)
Definition hasOwn {V} (o : obj V) (k : string) : bool :=
  existsb (String.eqb k) (keys o).

(** The property names of [Object.prototype], which every object made by
    an object literal inherits. *)
Definition Object_prototype_names : list string :=
  [ "constructor"; "__defineGetter__"; "__defineSetter__"; "hasOwnProperty";
    "__lookupGetter__"; "__lookupSetter__"; "isPrototypeOf";
    "propertyIsEnumerable"; "toString"; "valueOf"; "__proto__";
    "toLocaleString" ].

(** [k in o] for an object created by a literal: the own properties and
    those found along the prototype chain, here [Object.prototype]. *)
Definition has_property {V} (o : obj V) (k : string) : bool :=
  hasOwn o k || includes Object_prototype_names k.

(** Overwrite the value of an own property, keeping its position. *)
Fixpoint update {V} (o : obj V) (k : string) (v : V) : obj V :=
  match o with
  | [] => []
  | (k', v') :: o' =>
      if String.eqb k k' then (k', v) :: o' else (k', v') :: update o' k v
  end.

(** [{ ...o, [k]: v }]: a copy of [o] in which [k] holds [v]; an existing
    key keeps its place, a new one goes last. *)
Definition spread_set {V} (o : obj V) (k : string) (v : V) : obj V :=
  if hasOwn o k then update o k v else (o ++ [(k, v)])%list.

(** [o[k] = v] with a string [v], on an object created by a literal.  An
    own property is overwritten.  Otherwise the assignment creates an own
    property, also when [k] names an inherited method; the one exception
    is ["__proto__"], an accessor whose setter ignores a value that is
    neither an object nor [null]. *)
Definition assign (o : obj string) (k : string) (v : string) : obj string :=
  if hasOwn o k then update o k v
  else if String.eqb k "__proto__" then o
  else (o ++ [(k, v)])%list.

End Js.

(* ================================================================== *)
(** ** JavaScript numbers: [Number.prototype.toFixed] *)
(* ================================================================== *)

Module Num.

Definition pow10 (f : nat) : Z := 10 ^ Z.of_nat f.

(** The integer [n] for which [n / 10^f] is closest to [m * 2^e], the
    larger one when two are equally close: [floor (m * 2^e * 10^f + 1/2)]. *)
Definition nearest_scaled (f : nat) (m : positive) (e : Z) : Z :=
  if (0 <=? e)%Z then (Z.pos m * 2 ^ e * pow10 f)%Z
  else ((2 * Z.pos m * pow10 f + 2 ^ (- e)) / 2 ^ (1 - e))%Z.

(** [m * 2^e >= 10^21] *)
Definition at_least_1e21 (m : positive) (e : Z) : bool :=
  if (0 <=? e)%Z then (10 ^ 21 <=? Z.pos m * 2 ^ e)%Z
  else (10 ^ 21 * 2 ^ (- e) <=? Z.pos m)%Z.

Definition digit (d : Z) : string :=
  String (ascii_of_nat (48 + Z.to_nat d)) EmptyString.

Fixpoint digits_fuel (fuel : nat) (n : Z) : string :=
  match fuel with
  | O => EmptyString
  | S fuel' =>
      if (n <? 10)%Z then digit n
      else digits_fuel fuel' (n / 10) ++ digit (n mod 10)
  end.

(** The decimal digits of a natural number, without leading zeros,
    ["0"] for zero.  The number of binary digits bounds the recursion. *)
Definition digits (n : Z) : string :=
  digits_fuel (S (Z.to_nat (Z.log2 n))) n.

Fixpoint zeros (k : nat) : string :=
  match k with
  | O => EmptyString
  | S k' => String "0" (zeros k')
  end.

(** Steps 11.b and 11.c of [toFixed]: the digits of [n], padded on the
    left to [f + 1] characters, with a point before the last [f]. *)
Definition place_point (f : nat) (n : Z) : string :=
  let m := digits n in
  if (f =? 0)%nat then m
  else
    let m := if (String.length m <=? f)%nat
             then zeros (f + 1 - String.length m) ++ m else m in
    let k := String.length m in
    substring 0 (k - f) m ++ "." ++ substring (k - f) f m.

Definition is_digit (c : ascii) : bool :=
  let n := nat_of_ascii c in (48 <=? n)%nat && (n <=? 57)%nat.

(** The text ends with a point, two digits and a percent sign. *)
Definition ends_with_two_decimals_percent (s : string) : bool :=
  match rev (list_ascii_of_string s) with
  | "%"%char :: d2 :: d1 :: "."%char :: _ => is_digit d1 && is_digit d2
  | _ => false
  end.

Section ToFixed.

(** [Number::toString] on a finite value of magnitude at least [10^21]
    (exponent notation with the shortest digits that round-trip): a
    built-in of the host, taken as given. *)
Variable Number_toString : float -> string.

(** [x.toFixed(f)] for [0 <= f <= 100]. *)
Definition toFixed (f : nat) (x : float) : string :=
  match Prim2SF x with
  | S754_nan => "NaN"
  | S754_infinity false => "Infinity"
  | S754_infinity true => "-Infinity"
  | S754_zero _ => place_point f 0
  | S754_finite s m e =>
      if at_least_1e21 m e then Number_toString x
      else (if s then "-" else "") ++ place_point f (nearest_scaled f m e)
  end.

End ToFixed.

(** Notions used to state what [toFixed] prints: whether a number is
    finite and below [10^21] in magnitude (zero included), the sign that
    is printed, and the nearest integer to the hundredfold of the
    magnitude. *)
Definition finite_below_1e21 (x : float) : bool :=
  match Prim2SF x with
  | S754_zero _ => true
  | S754_finite _ m e => negb (at_least_1e21 m e)
  | _ => false
  end.

Definition sign_text (x : float) : string :=
  match Prim2SF x with
  | S754_finite true _ _ => "-"
  | _ => EmptyString
  end.

Definition hundredths (x : float) : Z :=
  match Prim2SF x with
  | S754_finite _ m e => nearest_scaled 2 m e
  | _ => 0%Z
  end.

(** [Number::toString], the default text of a number: spelled out for
    the values that are not finite and for zero, the host's conversion
    [Number_toString] for the others. *)
Definition default_number_string (Number_toString : float -> string)
    (x : float) : string :=
  match Prim2SF x with
  | S754_nan => "NaN"
  | S754_infinity false => "Infinity"
  | S754_infinity true => "-Infinity"
  | S754_zero _ => "0"
  | S754_finite _ _ _ => Number_toString x
  end.

End Num.

(* ================================================================== *)
(** ** Errors and programs with effects *)
(* ================================================================== *)

(** A file chosen in the file input; only its identity matters here. *)
Record File := { file_name : string }.

Definition FormData : Type := list (string * File).

(** A parsed JSON value, as [response.data] and the fields of a reply
    are once axios or [response.json()] has read them. *)
#[local] Unset Elimination Schemes.
Inductive Json :=
| JNull
| JBool (b : bool)
| JNumber (x : float)
| JString (s : string)
| JArray (xs : list Json)
| JObject (fields : list (string * Json)).
#[local] Set Elimination Schemes.

(** Truthiness of a JSON value: [null], [false], [0], [-0] and ['']
    are falsy, every other value is truthy, objects and arrays
    included. *)
Definition truthy_value (v : Json) : bool :=
  match v with
  | JNull => false
  | JBool b => b
  | JNumber x =>
      match Prim2SF x with
      | S754_zero _ => false
      | S754_nan => false
      | _ => true
      end
  | JString s => Js.truthy s
  | JArray _ => true
  | JObject _ => true
  end.

(** The body of an error response, [err.response.data]; its [error]
    field, when the body has one, is whatever JSON value the server
    put there: the handler reads it from a value of type [any]. *)
Record ErrorBody := { body_error : option Json }.

(** [err.response] of an axios error: present when the server answered. *)
Record ErrorResponse := { status : Z; response_data : option ErrorBody }.

(** The values thrown in this program. *)
Inductive JsError :=
| Error_ (message : string)
| AxiosError (message : string) (response : option ErrorResponse).

(** A handler is a finite tree of effects of a signature [E]: it returns,
    or performs an effect and continues with its answer. *)
Inductive Prog (E : Type -> Type) (A : Type) : Type :=
| Ret (a : A)
| Vis {X : Type} (e : E X) (k : X -> Prog E A).

Arguments Ret {E A} a.
Arguments Vis {E A X} e k.

Fixpoint bind {E : Type -> Type} {A B} (p : Prog E A) (f : A -> Prog E B) : Prog E B :=
  match p with
  | Ret a => f a
  | Vis e k => Vis e (fun x => bind (k x) f)
  end.

Definition trigger {E : Type -> Type} {X} (e : E X) : Prog E X := Vis e Ret.

(** Code that may throw: the outcome is the thrown value or the result. *)
Definition Exc (E : Type -> Type) (A : Type) : Type := Prog E (JsError + A).

Definition ret {E A} (a : A) : Exc E A := Ret (inr a).
Definition throw {E A} (err : JsError) : Exc E A := Ret (inl err).

Definition bindE {E A B} (p : Exc E A) (f : A -> Exc E B) : Exc E B :=
  bind p (fun r => match r with inl err => Ret (inl err) | inr a => f a end).

(** An effect that cannot fail. *)
Definition perform {E : Type -> Type} {X} (e : E X) : Exc E X := bind (trigger e) ret.

(** [await] on a promise that may reject. *)
Definition await {E : Type -> Type} {X} (e : E (JsError + X)%type) : Exc E X := trigger e.

(** [try { p } catch (err) { h err }] *)
Definition try_catch {E A} (p : Exc E A) (h : JsError -> Exc E A) : Exc E A :=
  bind p (fun r => match r with inl err => h err | inr a => Ret (inr a) end).

(** [try { p } finally { f }], for a [finally] block that does not throw. *)
Definition try_finally {E A} (p : Exc E A) (f : Prog E unit) : Exc E A :=
  bind p (fun r => bind f (fun _ => Ret r)).

Declare Scope prog_scope.
Delimit Scope prog_scope with prog.
Notation "x <- p ;; q" := (bindE p (fun x => q))
  (at level 61, p at next level, right associativity) : prog_scope.
Notation "p ;; q" := (bindE p (fun _ => q))
  (at level 61, right associativity) : prog_scope.

(* ================================================================== *)
(** ** The form component, [src/App.tsx] *)
(* ================================================================== *)

Module App.

Import Js.

Inductive Prediction := edible | poisonous.

(** [interface PredictionResult] *)
Record PredictionResult := {
  prediction : Prediction;
  confidence : float
}.

(** [interface MushroomFeatures { [key: string]: string }] *)
Definition MushroomFeatures : Type := obj string.

Definition REQUIRED_FEATURES : list string :=
  [ "odor"; "spore-print-color"; "gill-color"; "cap-color"; "bruises";
    "ring-type"; "gill-spacing"; "cap-shape"; "population"; "habitat";
    "stalk-surface-above-ring"; "cap-surface" ].

(** The state held by the [useState] hooks of [App].  [result] is
    [null] or what [setResult] stored.  [error] is declared
    [string | null]; besides the messages of the component itself,
    [setError] also receives the [error] field of an error reply, a
    JSON value of any kind. *)
Record AppState := {
  result : option PredictionResult;
  loading : bool;
  error : option Json;
  imagePreview : option string;
  features : MushroomFeatures
}.

(** The second argument of [fetch]. *)
Record RequestInit := { method : string; body : FormData }.

(** The parsed body of the reply of [/analyze-image]: [null], or an
    object whose [features] field, when truthy, maps names to values.
    The values are strings, as the cast [value as string] of the loop
    takes them to be; a reply with other values is outside the model. *)
Inductive AnalysisData :=
| data_null
| data_object (data_features : option (obj string)).

(** What [fetch] resolves to: the [ok] flag and the outcome of
    [response.json()]. *)
Record FetchResponse := { ok : bool; json : JsError + AnalysisData }.

(** What [axios.post] resolves to.  The body of the reply is [null] or
    an object read as a [PredictionResult]; it goes to [setResult]
    unchecked. *)
Record AxiosResponse := { data : option PredictionResult }.

(** The effects of the handlers. *)
Inductive AppE : Type -> Type :=
| preventDefault : AppE unit
| setResult (r : option PredictionResult) : AppE unit
| setLoading (b : bool) : AppE unit
| setError (msg : option Json) : AppE unit
| setImagePreview (url : string) : AppE unit
| setFeatures (fs : MushroomFeatures) : AppE unit
| updateFeatures (f : MushroomFeatures -> MushroomFeatures) : AppE unit
| createObjectURL (file : File) : AppE string
| fetch (url : string) (init : RequestInit) : AppE (JsError + FetchResponse)
| axios_post (url : string) (payload : MushroomFeatures)
    : AppE (JsError + AxiosResponse)
| console_log (label : string) (d : AnalysisData) : AppE unit
| console_error (label : string) (err : JsError) : AppE unit.

(** [key.split('-').map(word => word.charAt(0).toUpperCase() +
    word.slice(1)).join(' ')] *)
Definition capitalize (word : string) : string :=
  toUpperCase (charAt0 word) ++ slice1 word.

Definition humanize (key : string) : string :=
  join " " (map capitalize (split "-" key)).

(** [err.response?.data?.error] *)
Definition response_data_error (err : JsError) : option Json :=
  match err with
  | Error_ _ => None
  | AxiosError _ None => None
  | AxiosError _ (Some r) =>
      match response_data r with
      | None => None
      | Some b => body_error b
      end
  end.

(** The filter of [handleSubmit]: the entries of required features whose
    value is falsy. *)
Definition emptyRequiredEntries (fs : MushroomFeatures)
  : list (string * string) :=
  filter (fun '(key, value) => includes REQUIRED_FEATURES key && negb (truthy value))
         (entries fs).

Definition emptyRequiredFields (fs : MushroomFeatures) : list string :=
  map (fun '(key, _) => humanize key) (emptyRequiredEntries fs).

(** The loop of [handleImageUpload] over the detected features. *)
Definition mergeDetected (fs : MushroomFeatures) (detected : obj string)
  : MushroomFeatures :=
  fold_left
    (fun newFeatures '(key, value) =>
       if has_property newFeatures key then assign newFeatures key value
       else newFeatures)
    (entries detected) fs.

Section Component.

(** [import.meta.env.VITE_API_URL], absent when the variable is not set. *)
Variable VITE_API_URL : option string.

(** The keys of [featureDescriptions] with their options; the table is
    imported from a module that is not part of the sources at hand. *)
Variable featureDescriptions : obj (obj string).

Definition API_URL : string :=
  match VITE_API_URL with
  | Some url => if truthy url then url else "http://localhost:5000"
  | None => "http://localhost:5000"
  end.

(** The initial value of the [features] state. *)
Definition initialFeatures : MushroomFeatures :=
  fold_left (fun acc key => assign acc key "") (keys featureDescriptions) [].

Definition initialState : AppState :=
  {| result := None; loading := false; error := None;
     imagePreview := None; features := initialFeatures |}.

Local Open Scope prog_scope.

Definition handleFeatureChange (feature value : string) : Exc AppE unit :=
  perform (updateFeatures (fun prev => spread_set prev feature value)).

(** [fs] is the [features] of the render that created the handler,
    [files] is [event.target.files]. *)
Definition handleImageUpload (fs : MushroomFeatures)
    (files : option (list File)) : Exc AppE unit :=
  match files with
  | None => ret tt
  | Some [] => ret tt
  | Some (file :: _) =>
      url <- perform (createObjectURL file) ;;
      perform (setImagePreview url) ;;
      let formData := [("image", file)] in
      try_finally
        (try_catch
           (perform (setLoading true) ;;
            response <- await (fetch (API_URL ++ "/analyze-image")
                                 {| method := "POST"; body := formData |}) ;;
            (if negb (ok response)
             then throw (Error_ "Failed to analyze image") else ret tt) ;;
            d <- Ret (json response) ;;
            perform (console_log "Image analysis results:" d) ;;
            match d with
            | data_null =>
                throw (Error_ "Cannot read properties of null (reading 'features')")
            | data_object None => ret tt
            | data_object (Some detected) =>
                perform (setFeatures (mergeDetected fs detected))
            end)
           (fun err =>
              perform (console_error "Error analyzing image:" err) ;;
              perform (setError
                         (Some (JString "Failed to analyze image. Please try again.")))))
        (trigger (setLoading false))
  end.

(** [fs] is the [features] of the render that created the handler. *)
Definition handleSubmit (fs : MushroomFeatures) : Exc AppE unit :=
  perform preventDefault ;;
  perform (setLoading true) ;;
  perform (setError None) ;;
  let missing := emptyRequiredFields fs in
  if (0 <? length missing)%nat then
    perform (setError (Some (JString ("Please fill in all required fields: "
                                      ++ join ", " missing)))) ;;
    perform (setLoading false) ;;
    ret tt
  else
    try_finally
      (try_catch
         (response <- await (axios_post (API_URL ++ "/predict") fs) ;;
          perform (setResult (data response)))
         (fun err =>
            match response_data_error err with
            | Some value =>
                if truthy_value value then perform (setError (Some value))
                else perform (setError
                                (Some (JString "Failed to get prediction. Please try again.")))
            | None =>
                perform (setError
                           (Some (JString "Failed to get prediction. Please try again.")))
            end ;;
            perform (console_error "Prediction error:" err)))
      (trigger (setLoading false)).

End Component.

(* ------------------------------------------------------------------ *)
(** *** The result panel *)

Definition prediction_text (p : Prediction) : string :=
  match p with
  | edible => "edible"
  | poisonous => "poisonous"
  end.

Section Render.

Variable Number_toString : float -> string.

(** The text of the panel shown when [result] is set: the heading and the
    confidence line, [(result.confidence * 100).toFixed(2)] followed by
    the percent sign. *)
Definition confidence_line (r : PredictionResult) : string :=
  "Confidence: " ++ Num.toFixed Number_toString 2 (confidence r * 100)%float ++ "%".

Definition heading (r : PredictionResult) : string :=
  "This mushroom is predicted to be " ++ prediction_text (prediction r).

Definition render_result (res : option PredictionResult)
  : option (string * string) :=
  match res with
  | None => None
  | Some r => Some (heading r, confidence_line r)
  end.

End Render.

(* ------------------------------------------------------------------ *)
(** *** Running a handler *)

(** The replies of the outside world. *)
Record Env := {
  reply_post : string -> MushroomFeatures -> JsError + AxiosResponse;
  reply_fetch : string -> RequestInit -> JsError + FetchResponse;
  object_url : File -> string
}.

Inductive Event : Type :=
| Ev : forall {X : Type}, AppE X -> Event.

(** The effect of a state setter on the state; other effects leave it. *)
Definition apply_effect {X} (e : AppE X) (st : AppState) : AppState :=
  match e with
  | setResult r =>
      {| result := r; loading := loading st; error := error st;
         imagePreview := imagePreview st; features := features st |}
  | setLoading b =>
      {| result := result st; loading := b; error := error st;
         imagePreview := imagePreview st; features := features st |}
  | setError msg =>
      {| result := result st; loading := loading st; error := msg;
         imagePreview := imagePreview st; features := features st |}
  | setImagePreview url =>
      {| result := result st; loading := loading st; error := error st;
         imagePreview := Some url; features := features st |}
  | setFeatures fs =>
      {| result := result st; loading := loading st; error := error st;
         imagePreview := imagePreview st; features := fs |}
  | updateFeatures f =>
      {| result := result st; loading := loading st; error := error st;
         imagePreview := imagePreview st; features := f (features st) |}
  | _ => st
  end.

(** The answer an effect receives. *)
Definition answer (env : Env) {X} (e : AppE X) : X :=
  match e in AppE X return X with
  | preventDefault => tt
  | setResult _ => tt
  | setLoading _ => tt
  | setError _ => tt
  | setImagePreview _ => tt
  | setFeatures _ => tt
  | updateFeatures _ => tt
  | createObjectURL file => object_url env file
  | fetch url init => reply_fetch env url init
  | axios_post url payload => reply_post env url payload
  | console_log _ _ => tt
  | console_error _ _ => tt
  end.

(** Run a handler from a state: its outcome, the final state and the
    effects it performed, in order. *)
Fixpoint run {A} (env : Env) (p : Prog AppE A) (st : AppState)
  : A * AppState * list Event :=
  match p with
  | Ret a => (a, st, [])
  | Vis e k =>
      match run env (k (answer env e)) (apply_effect e st) with
      | (a, st1, tr) => (a, st1, Ev e :: tr)
      end
  end.

Definition outcome {A} (env : Env) (p : Prog AppE A) (st : AppState) : A :=
  fst (fst (run env p st)).
Definition final {A} (env : Env) (p : Prog AppE A) (st : AppState) : AppState :=
  snd (fst (run env p st)).
Definition trace {A} (env : Env) (p : Prog AppE A) (st : AppState) : list Event :=
  snd (run env p st).

(** The states the component goes through while a trace unfolds. *)
Fixpoint states_along (tr : list Event) (st : AppState) : list AppState :=
  match tr with
  | [] => []
  | Ev e :: tr' => apply_effect e st :: states_along tr' (apply_effect e st)
  end.

(** The state after a series of selections in the form, each one a call
    of [handleFeatureChange]. *)
Definition after_changes (env : Env) (changes : list (string * string))
    (st : AppState) : AppState :=
  fold_left
    (fun s '(feature, value) => final env (handleFeatureChange feature value) s)
    changes st.

Definition is_network (ev : Event) : bool :=
  match ev with
  | Ev (axios_post _ _) => true
  | Ev (fetch _ _) => true
  | Ev _ => false
  end.


Definition is_setError (ev : Event) : bool :=
  match ev with
  | Ev (setError _) => true
  | Ev _ => false
  end.

End App.

(* ================================================================== *)
(** ** The API client, [src/services/api.ts] *)
(* ================================================================== *)

Module Api.

(** The body of a response, [response.data], is a parsed JSON value. *)
Record AxiosResponse := { data : Json }.

(** The instance made by [axios.create]. *)
Record AxiosInstance := {
  baseURL : string;
  headers : list (string * string)
}.

Definition API_BASE_URL : string := "http://localhost:8000".

Definition api : AxiosInstance :=
  {| baseURL := API_BASE_URL;
     headers := [("Content-Type", "application/json")] |}.

Inductive Payload :=
| json_payload (features : Js.obj string)
| form_payload (formData : FormData).

(** The effects of the client: one constructor per call of the axios
    instance, and the console. *)
Inductive ApiE : Type -> Type :=
| post (inst : AxiosInstance) (url : string) (payload : Payload)
       (config_headers : list (string * string))
    : ApiE (JsError + AxiosResponse)
| get (inst : AxiosInstance) (url : string) : ApiE (JsError + AxiosResponse)
| console_error (label : string) (err : JsError) : ApiE unit.

Local Open Scope prog_scope.

Definition predictMushroom (features : Js.obj string) : Exc ApiE Json :=
  try_catch
    (response <- await (post api "/api/predict" (json_payload features) []) ;;
     ret (data response))
    (fun error =>
       perform (console_error "Error predicting mushroom:" error) ;;
       throw error).

Definition analyzeImage (imageFile : File) : Exc ApiE Json :=
  try_catch
    (let formData := [("image", imageFile)] in
     response <- await (post api "/analyze-image" (form_payload formData)
                          [("Content-Type", "multipart/form-data")]) ;;
     ret (data response))
    (fun error =>
       perform (console_error "Error analyzing image:" error) ;;
       throw error).

Definition checkHealth : Exc ApiE Json :=
  try_catch
    (response <- await (get api "/api/health") ;;
     ret (data response))
    (fun error =>
       perform (console_error "Error checking health:" error) ;;
       throw error).

(** The server, as the client sees it: the outcome of each request. *)
Record Env := {
  reply_post : AxiosInstance -> string -> Payload -> list (string * string)
               -> JsError + AxiosResponse;
  reply_get : AxiosInstance -> string -> JsError + AxiosResponse
}.

Inductive Event : Type :=
| Ev : forall {X : Type}, ApiE X -> Event.

Definition answer (env : Env) {X} (e : ApiE X) : X :=
  match e in ApiE X return X with
  | post inst url payload cfg => reply_post env inst url payload cfg
  | get inst url => reply_get env inst url
  | console_error _ _ => tt
  end.

(** The outcome of a call and the effects it performed, in order. *)
Fixpoint run {A} (env : Env) (p : Prog ApiE A) : A * list Event :=
  match p with
  | Ret a => (a, [])
  | Vis e k =>
      match run env (k (answer env e)) with
      | (a, tr) => (a, Ev e :: tr)
      end
  end.

Definition is_request (ev : Event) : bool :=
  match ev with
  | Ev (post _ _ _ _) => true
  | Ev (get _ _) => true
  | Ev _ => false
  end.

Definition requests (tr : list Event) : nat := length (filter is_request tr).

End Api.

(* ================================================================== *)
(** ** Sample data *)
(* ================================================================== *)

Module Sample.

Import App.

(** A feature table in the shape of [featureDescriptions]: the twelve
    required features and three optional ones, each with its options. *)
Definition featureDescriptions : Js.obj (Js.obj string) :=
  [ ("cap-shape", [("b", "bell"); ("x", "convex")]);
    ("cap-surface", [("f", "fibrous"); ("s", "smooth")]);
    ("cap-color", [("n", "brown"); ("w", "white")]);
    ("bruises", [("t", "bruises"); ("f", "no")]);
    ("odor", [("f", "foul"); ("n", "none")]);
    ("gill-spacing", [("c", "close"); ("w", "crowded")]);
    ("gill-size", [("b", "broad"); ("n", "narrow")]);
    ("gill-color", [("k", "black"); ("w", "white")]);
    ("stalk-surface-above-ring", [("f", "fibrous"); ("s", "smooth")]);
    ("veil-type", [("p", "partial"); ("u", "universal")]);
    ("ring-type", [("e", "evanescent"); ("p", "pendant")]);
    ("spore-print-color", [("k", "black"); ("w", "white")]);
    ("population", [("s", "scattered"); ("v", "several")]);
    ("habitat", [("g", "grasses"); ("d", "woods")]);
    ("stalk-shape", [("e", "enlarging"); ("t", "tapering")]) ].

(** Every required feature chosen, the optional ones left unset. *)
Definition filled : MushroomFeatures :=
  [ ("cap-shape", "x"); ("cap-surface", "s"); ("cap-color", "n");
    ("bruises", "t"); ("odor", "f"); ("gill-spacing", "c");
    ("gill-size", ""); ("gill-color", "k");
    ("stalk-surface-above-ring", "s"); ("veil-type", "");
    ("ring-type", "p"); ("spore-print-color", "k"); ("population", "s");
    ("habitat", "g"); ("stalk-shape", "") ].

(** The selections that lead from the empty form to [filled]. *)
Definition selections : list (string * string) :=
  [ ("cap-shape", "x"); ("cap-surface", "s"); ("cap-color", "n");
    ("bruises", "t"); ("odor", "n"); ("odor", "f"); ("gill-spacing", "c");
    ("gill-color", "k"); ("stalk-surface-above-ring", "s");
    ("ring-type", "p"); ("spore-print-color", "k"); ("population", "s");
    ("habitat", "g") ].

(** Two required features left empty. *)
Definition partly_filled : MushroomFeatures :=
  Js.update (Js.update filled "odor" "") "spore-print-color" "".

Definition verdict : PredictionResult :=
  {| prediction := poisonous; confidence := 0x1.bd70a3d70a3d7p-1 |}.

Definition state_of (fs : MushroomFeatures) : AppState :=
  {| result := None; loading := false; error := None;
     imagePreview := None; features := fs |}.

(** The state after a successful prediction on [filled]. *)
Definition settled : AppState :=
  {| result := Some verdict; loading := false; error := None;
     imagePreview := None; features := filled |}.

(** The state after a failed operation. *)
Definition failed : AppState :=
  {| result := None; loading := false;
     error := Some (JString "Failed to get prediction. Please try again.");
     imagePreview := None; features := filled |}.

Definition photo : File := {| file_name := "amanita.jpg" |}.

Definition network_error : JsError := AxiosError "Network Error" None.


(** A 422 reply whose body is [{ error: value }], for any JSON value. *)
Definition rejection (value : Json) : JsError :=
  AxiosError "Request failed with status code 422"
    (Some {| status := 422;
             response_data := Some {| body_error := Some value |} |}).

(** A server that answers the prediction request with status 200 and
    the body [null]. *)
Definition server_null_body : Env :=
  {| reply_post := fun _ _ => inr {| data := None |};
     reply_fetch := fun _ _ => inl (Error_ "Failed to fetch");
     object_url := fun f => "blob:" ++ file_name f |}.

(** A server that answers every request. *)
Definition server_up (detected : Js.obj string) : Env :=
  {| reply_post := fun _ _ => inr {| data := Some verdict |};
     reply_fetch := fun _ _ =>
       inr {| ok := true;
              json := inr (data_object (Some detected)) |};
     object_url := fun f => "blob:" ++ file_name f |}.

(** A server whose prediction endpoint fails with [err]. *)
Definition server_failing (err : JsError) : Env :=
  {| reply_post := fun _ _ => inl err;
     reply_fetch := fun _ _ => inl (Error_ "Failed to fetch");
     object_url := fun f => "blob:" ++ file_name f |}.

(** The host's exponent notation is not needed below [10^21]. *)
Definition no_exponent_notation : float -> string := fun _ => "".

Definition api_up : Api.Env :=
  {| Api.reply_post := fun _ _ _ _ =>
       inr {| Api.data := JObject [("prediction", JString "edible")] |};
     Api.reply_get := fun _ _ =>
       inr {| Api.data := JObject [("status", JString "healthy")] |} |}.

Definition api_down : Api.Env :=
  {| Api.reply_post := fun _ _ _ _ => inl network_error;
     Api.reply_get := fun _ _ => inl network_error |}.

End Sample.

(* ================================================================== *)
(** ** What the component renders, [src/App.tsx] lines 128 to 276 *)
(* ================================================================== *)

Module View.

Import Js App.





(** The label of a feature: its humanized name and the marker that
    follows it, [*] for a required feature and [(Optional)] otherwise. *)
Record Label := { label_text : string; marker : string }.

Definition feature_label (feature : string) : Label :=
  let isRequired := includes REQUIRED_FEATURES feature in
  {| label_text := humanize feature;
     marker := if isRequired then "*" else "(Optional)" |}.

(** [value={features[feature]}] of the select of a feature. *)
Definition select_value (st : AppState) (feature : string) : option string :=
  get (features st) feature.

(** The image area: the preview when there is one, the icon otherwise. *)
Inductive ImageArea :=
| preview_image (src : string)
| photo_icon.

Definition image_area (st : AppState) : ImageArea :=
  match imagePreview st with
  | Some src => if truthy src then preview_image src else photo_icon
  | None => photo_icon
  end.



(** The errors passed to [console.error] along a trace, in order. *)
Definition logged_errors (tr : list Event) : list JsError :=
  flat_map (fun ev => match ev with
                      | Ev (console_error _ err) => [err]
                      | Ev _ => []
                      end) tr.

End View.

(** A text of ASCII characters only.  On such a text [Js.toUpperCase]
    is [String.prototype.toUpperCase]; the case mapping of other
    characters is not modelled. *)
Definition ascii_text (s : string) : bool :=
  forallb (fun c => (nat_of_ascii c <? 128)%nat) (list_ascii_of_string s).

(** Every key but ["__proto__"]. *)
Definition not_proto (k : string) : bool := negb (String.eqb k "__proto__").

(** A comparison text for [App.humanize], in one pass over the name:
    a hyphen becomes a space, and the character at the start of the name
    or after a hyphen is put in upper case. *)
Fixpoint title_pass (at_start : bool) (s : string) : string :=
  match s with
  | EmptyString => EmptyString
  | String c s' =>
      if Ascii.eqb c "-" then String " " (title_pass true s')
      else String (if at_start then Js.upper_ascii c else c)
                  (title_pass false s')
  end.

(** The entries that [Js.assign] creates for detected keys that the form
    lacks and that name a method of [Object.prototype]. *)
Definition inherited_entries (fs detected : Js.obj string) : Js.obj string :=
  filter (fun kv =>
            negb (Js.hasOwn fs (fst kv))
            && Js.includes Js.Object_prototype_names (fst kv)
            && negb (String.eqb (fst kv) "__proto__"))
         detected.

(** A form in which every value that was detected replaces the one of
    the form. *)
Definition overwritten (fs detected : Js.obj string) : Js.obj string :=
  map (fun kv =>
         (fst kv, match Js.get detected (fst kv) with
                  | Some v => v
                  | None => snd kv
                  end))
      fs.

(* ================================================================== *)
(** ** Properties of the string and object primitives *)
(* ================================================================== *)

Module JsFacts.

Import Js.

Lemma includes_In (xs : list string) (x : string) :
  includes xs x = true <-> In x xs.
Proof.
  unfold includes. rewrite existsb_exists. split.
  - intros [y [Hy Heq]]. apply String.eqb_eq in Heq. now subst.
  - intros H. exists x. split; [assumption | apply String.eqb_refl].
Qed.

Lemma truthy_false (s : string) : truthy s = false <-> s = "".
Proof.
  unfold truthy. rewrite negb_false_iff. apply String.eqb_eq.
Qed.

Lemma truthy_true (s : string) : truthy s = true <-> s <> "".
Proof.
  unfold truthy. rewrite negb_true_iff. apply String.eqb_neq.
Qed.

Lemma hasOwn_In {V} (o : obj V) (k : string) :
  hasOwn o k = true <-> In k (keys o).
Proof. apply includes_In. Qed.

Lemma hasOwn_false {V} (o : obj V) (k : string) :
  hasOwn o k = false <-> ~ In k (keys o).
Proof.
  rewrite <- hasOwn_In. destruct (hasOwn o k); split; congruence.
Qed.

Lemma keys_update {V} (o : obj V) (k : string) (v : V) :
  keys (update o k v) = keys o.
Proof.
  unfold keys. induction o as [| [k' v'] o IH]; simpl; [reflexivity |].
  destruct (String.eqb k k'); simpl; [reflexivity | now rewrite IH].
Qed.

Lemma get_None {V} (o : obj V) (k : string) :
  get o k = None <-> ~ In k (keys o).
Proof.
  unfold keys. induction o as [| [k' v'] o IH]; simpl.
  - tauto.
  - destruct (String.eqb_spec k k') as [-> | Hne].
    + split; [discriminate | intros H; exfalso; apply H; now left].
    + rewrite IH. split; [intros H [E | E]; [congruence | tauto] | tauto].
Qed.

Lemma get_In {V} (o : obj V) (k : string) (v : V) :
  get o k = Some v -> In (k, v) (entries o).
Proof.
  unfold entries. induction o as [| [k' v'] o IH]; simpl; [discriminate |].
  destruct (String.eqb_spec k k') as [-> | Hne].
  - intros [= ->]. now left.
  - intros H. right. auto.
Qed.

Lemma In_get {V} (o : obj V) (k : string) (v : V) :
  NoDup (keys o) -> In (k, v) (entries o) -> get o k = Some v.
Proof.
  unfold entries, keys. induction o as [| [k' v'] o IH]; simpl; [tauto |].
  intros Hnd Hin. inversion Hnd as [| ? ? Hnotin Hnd']; subst.
  destruct Hin as [[= -> ->] | Hin].
  - now rewrite String.eqb_refl.
  - destruct (String.eqb_spec k k') as [-> | Hne]; [| auto].
    exfalso. apply Hnotin. change k' with (fst (k', v)). now apply in_map.
Qed.

Lemma get_update_same {V} (o : obj V) (k : string) (v : V) :
  In k (keys o) -> get (update o k v) k = Some v.
Proof.
  unfold keys. induction o as [| [k' v'] o IH]; simpl; [tauto |].
  intros Hin. destruct (String.eqb_spec k k') as [-> | Hne]; simpl.
  - now rewrite String.eqb_refl.
  - destruct (String.eqb_spec k k'); [congruence |].
    apply IH. destruct Hin; [congruence | assumption].
Qed.

Lemma get_update_other {V} (o : obj V) (k k0 : string) (v : V) :
  k0 <> k -> get (update o k v) k0 = get o k0.
Proof.
  intros Hne. induction o as [| [k' v'] o IH]; simpl; [reflexivity |].
  destruct (String.eqb_spec k k') as [-> | Hne']; simpl.
  - destruct (String.eqb_spec k0 k'); [congruence | reflexivity].
  - destruct (String.eqb_spec k0 k'); [reflexivity | apply IH].
Qed.

Lemma get_app_new {V} (o : obj V) (k k0 : string) (v : V) :
  get (o ++ [(k, v)])%list k0 =
  match get o k0 with
  | Some w => Some w
  | None => if String.eqb k0 k then Some v else None
  end.
Proof.
  induction o as [| [k' v'] o IH]; simpl; [reflexivity |].
  destruct (String.eqb k0 k'); [reflexivity | apply IH].
Qed.

End JsFacts.

(* ================================================================== *)
(** ** Humanized feature names *)
(* ================================================================== *)

Module Names.

Import Js App.

Lemma split_nonempty (sep : ascii) (s : string) : split sep s <> [].
Proof.
  destruct s as [| c s]; simpl; [discriminate |].
  destruct (Ascii.eqb c sep); [discriminate |].
  destruct (split sep s); discriminate.
Qed.

Lemma join_cons_char (sep : string) (c : ascii) (w : string) (ws : list string) :
  join sep (String c w :: ws) = String c (join sep (w :: ws)).
Proof. unfold join. destruct ws; reflexivity. Qed.

(** Joining the pieces with the separator gives the string back: [split]
    loses nothing and cuts at the separators only. *)
Lemma join_split (sep : ascii) (s : string) :
  join (String sep "") (split sep s) = s.
Proof.
  induction s as [| c s IH]; [reflexivity |]. simpl.
  destruct (Ascii.eqb_spec c sep) as [-> | Hne].
  - pose proof (split_nonempty sep s) as Hne.
    destruct (split sep s) as [| w ws]; [contradiction |].
    unfold join in *. simpl. simpl in IH. now rewrite IH.
  - pose proof (split_nonempty sep s) as Hne'.
    destruct (split sep s) as [| w ws]; [contradiction |].
    now rewrite join_cons_char, IH.
Qed.

Lemma REQUIRED_FEATURES_twelve : length REQUIRED_FEATURES = 12%nat.
Proof. reflexivity. Qed.

Lemma REQUIRED_FEATURES_NoDup : NoDup REQUIRED_FEATURES.
Proof.
  unfold REQUIRED_FEATURES.
  repeat (constructor; [simpl; intuition discriminate |]). constructor.
Qed.

Example humanize_required :
  map humanize REQUIRED_FEATURES
  = [ "Odor"; "Spore Print Color"; "Gill Color"; "Cap Color"; "Bruises";
      "Ring Type"; "Gill Spacing"; "Cap Shape"; "Population"; "Habitat";
      "Stalk Surface Above Ring"; "Cap Surface" ].
Proof. reflexivity. Qed.

End Names.

(* ================================================================== *)
(** ** Validation of the required features *)
(* ================================================================== *)

Module Validation.

Import Js JsFacts App.

(** The names of the entries kept by the filter of [handleSubmit]. *)
Lemma emptyRequiredFields_names (fs : MushroomFeatures) :
  emptyRequiredFields fs = map humanize (keys (emptyRequiredEntries fs)).
Proof.
  unfold emptyRequiredFields, keys. rewrite map_map.
  apply map_ext. now intros [k v].
Qed.

Lemma emptyRequiredEntries_In (fs : MushroomFeatures) (k v : string) :
  In (k, v) (emptyRequiredEntries fs) <->
  In (k, v) (entries fs) /\ In k REQUIRED_FEATURES /\ v = "".
Proof.
  unfold emptyRequiredEntries. rewrite filter_In.
  rewrite andb_true_iff, includes_In, negb_true_iff, truthy_false.
  tauto.
Qed.

Lemma emptyRequiredKeys_In (fs : MushroomFeatures) (k : string) :
  In k (keys (emptyRequiredEntries fs)) <->
  In k REQUIRED_FEATURES /\ In (k, "") (entries fs).
Proof.
  unfold keys. rewrite in_map_iff. split.
  - intros [[k' v] [Hk Hin]]. simpl in Hk. subst k'.
    apply emptyRequiredEntries_In in Hin. destruct Hin as [Hin [Hreq ->]].
    now split.
  - intros [Hreq Hin]. exists (k, ""). split; [reflexivity |].
    apply emptyRequiredEntries_In. now repeat split.
Qed.

Lemma keys_filter_NoDup {V} (f : string * V -> bool) (o : obj V) :
  NoDup (keys o) -> NoDup (keys (filter f o)).
Proof.
  unfold keys. induction o as [| [k v] o IH]; simpl; intros Hnd.
  - constructor.
  - inversion Hnd as [| ? ? Hnotin Hnd']; subst.
    destruct (f (k, v)); simpl; [| auto].
    constructor; [| auto].
    intros Hin. apply Hnotin. apply in_map_iff in Hin.
    destruct Hin as [[k' v'] [Hk Hin]]. simpl in Hk. subst k'.
    apply filter_In in Hin. destruct Hin as [Hin _].
    change k with (fst (k, v')). now apply in_map.
Qed.

(** Validation passes exactly when no entry of a required feature holds
    the empty string. *)
Lemma validation_passes_iff (fs : MushroomFeatures) :
  emptyRequiredFields fs = [] <->
  forall k, In k REQUIRED_FEATURES -> ~ In (k, "") (entries fs).
Proof.
  rewrite emptyRequiredFields_names. split.
  - intros Hnil k Hreq Hin.
    assert (Hk : In k (keys (emptyRequiredEntries fs)))
      by (apply emptyRequiredKeys_In; now split).
    apply (in_map humanize) in Hk. rewrite Hnil in Hk. exact Hk.
  - intros Hall. destruct (keys (emptyRequiredEntries fs)) as [| k ks] eqn:E;
      [reflexivity |].
    exfalso. assert (Hk : In k (keys (emptyRequiredEntries fs)))
      by (rewrite E; now left).
    apply emptyRequiredKeys_In in Hk. destruct Hk as [Hreq Hin].
    exact (Hall k Hreq Hin).
Qed.

(** The run of a submission that validation stops. *)
Lemma run_handleSubmit_rejected VITE env st (fs : MushroomFeatures)
    (f : string) (rest : list string) :
  emptyRequiredFields fs = f :: rest ->
  run env (handleSubmit VITE fs) st =
    (inr tt,
     {| result := result st; loading := false;
        error := Some (JString ("Please fill in all required fields: "
                                ++ join ", " (f :: rest)));
        imagePreview := imagePreview st; features := features st |},
     [ Ev preventDefault; Ev (setLoading true); Ev (setError None);
       Ev (setError (Some (JString ("Please fill in all required fields: "
                                    ++ join ", " (f :: rest)))));
       Ev (setLoading false) ]).
Proof.
  intros E. unfold handleSubmit. rewrite E. reflexivity.
Qed.

(** The run of a submission that passes validation, by the reply of the
    prediction endpoint. *)
Lemma run_handleSubmit_accepted VITE env st (fs : MushroomFeatures) :
  emptyRequiredFields fs = [] ->
  run env (handleSubmit VITE fs) st =
    match reply_post env (API_URL VITE ++ "/predict") fs with
    | inr response =>
        (inr tt,
         {| result := data response; loading := false; error := None;
            imagePreview := imagePreview st; features := features st |},
         [ Ev preventDefault; Ev (setLoading true); Ev (setError None);
           Ev (axios_post (API_URL VITE ++ "/predict") fs);
           Ev (setResult (data response)); Ev (setLoading false) ])
    | inl err =>
        let shown :=
          match response_data_error err with
          | Some value =>
              if truthy_value value then value
              else JString "Failed to get prediction. Please try again."
          | None => JString "Failed to get prediction. Please try again."
          end in
        (inr tt,
         {| result := result st; loading := false; error := Some shown;
            imagePreview := imagePreview st; features := features st |},
         [ Ev preventDefault; Ev (setLoading true); Ev (setError None);
           Ev (axios_post (API_URL VITE ++ "/predict") fs);
           Ev (setError (Some shown));
           Ev (console_error "Prediction error:" err);
           Ev (setLoading false) ])
    end.
Proof.
  intros E. unfold handleSubmit. rewrite E. simpl.
  destruct (reply_post env (API_URL VITE ++ "/predict") fs) as [err | response];
    simpl; [| reflexivity].
  destruct (response_data_error err) as [value |]; [| reflexivity].
  destruct (truthy_value value); reflexivity.
Qed.

End Validation.

Module FormState.

Import Js JsFacts App.

Lemma fold_assign_fresh (ks : list string) (acc : MushroomFeatures) :
  NoDup ks -> ~ In "__proto__" ks ->
  (forall k, In k ks -> ~ In k (keys acc)) ->
  fold_left (fun a key => assign a key "") ks acc
  = (acc ++ map (fun k => (k, "")) ks)%list.
Proof.
  revert acc. induction ks as [| k ks IH]; simpl; intros acc Hnd Hproto Hfresh.
  - now rewrite app_nil_r.
  - inversion Hnd as [| ? ? Hnotin Hnd']; subst.
    unfold assign at 2.
    assert (Hown : hasOwn acc k = false)
      by (apply hasOwn_false; apply Hfresh; now left).
    rewrite Hown.
    destruct (String.eqb_spec k "__proto__") as [-> | Hne];
      [exfalso; apply Hproto; now left |].
    rewrite IH; [now rewrite <- app_assoc | assumption | tauto |].
    intros k' Hk'. unfold keys. rewrite map_app, in_app_iff. simpl.
    intros [Hin | [<- | []]]; [| contradiction].
    apply (Hfresh k'); [now right | exact Hin].
Qed.

(** The form starts with every feature of the table set to the empty
    string, in the order of the table. *)
Lemma initialFeatures_all_empty (fd : obj (obj string)) :
  NoDup (keys fd) -> ~ In "__proto__" (keys fd) ->
  initialFeatures fd = map (fun k => (k, "")) (keys fd).
Proof.
  intros Hnd Hproto. unfold initialFeatures.
  rewrite fold_assign_fresh; auto.
Qed.

Lemma keys_map_empty (ks : list string) :
  keys (map (fun k => (k, "")) ks) = ks.
Proof.
  unfold keys. rewrite map_map. simpl. apply map_id.
Qed.

Lemma get_map_empty (ks : list string) (k : string) :
  In k ks -> get (map (fun k => (k, "")) ks) k = Some "".
Proof.
  induction ks as [| k' ks IH]; simpl; [tauto |].
  intros [-> | Hin]; [now rewrite String.eqb_refl |].
  destruct (String.eqb k k'); auto.
Qed.

Lemma features_after_change env feature value st :
  features (final env (handleFeatureChange feature value) st)
  = spread_set (features st) feature value.
Proof. reflexivity. Qed.

(** Selections on features of the table keep the keys of the form and
    touch no other value. *)
Lemma after_changes_frame env (changes : list (string * string)) st :
  (forall k v, In (k, v) changes -> In k (keys (features st))) ->
  keys (features (after_changes env changes st)) = keys (features st) /\
  forall k, ~ In k (map fst changes) ->
            get (features (after_changes env changes st)) k
            = get (features st) k.
Proof.
  revert st. induction changes as [| [f v] changes IH]; intros st Hin.
  - split; reflexivity.
  - unfold after_changes. simpl.
    fold (after_changes env changes (final env (handleFeatureChange f v) st)).
    assert (Hf : In f (keys (features st))) by (apply (Hin f v); now left).
    assert (Hstep : features (final env (handleFeatureChange f v) st)
                    = update (features st) f v).
    { rewrite features_after_change. unfold spread_set.
      apply hasOwn_In in Hf. now rewrite Hf. }
    destruct (IH (final env (handleFeatureChange f v) st)) as [Hkeys Hget].
    { intros k w Hkw. rewrite Hstep, keys_update. apply (Hin k w). now right. }
    rewrite Hkeys, Hstep, keys_update. split; [reflexivity |].
    intros k Hk. rewrite Hget by (intros H; apply Hk; now right).
    rewrite Hstep. apply get_update_other. intros ->. apply Hk. now left.
Qed.

End FormState.

(* ================================================================== *)
(** ** Properties of [toFixed] *)
(* ================================================================== *)

Module NumFacts.

Import Num.

(** [nearest_scaled] is the nearest integer, ties going up. *)
Lemma nearest_scaled_exact (f : nat) (m : positive) (e : Z) :
  (0 <= e)%Z -> nearest_scaled f m e = (Z.pos m * 2 ^ e * pow10 f)%Z.
Proof.
  intros He. unfold nearest_scaled.
  destruct (Z.leb_spec 0 e); [reflexivity | lia].
Qed.

Lemma nearest_scaled_bounds (f : nat) (m : positive) (e : Z) :
  (e < 0)%Z ->
  let n := nearest_scaled f m e in
  (2 * n * 2 ^ (- e) - 2 ^ (- e) <= 2 * (Z.pos m * pow10 f)
   < 2 * n * 2 ^ (- e) + 2 ^ (- e))%Z.
Proof.
  intros He. cbv zeta. unfold nearest_scaled.
  destruct (Z.leb_spec 0 e); [lia |].
  assert (Hh : (0 < 2 ^ (- e))%Z) by (apply Z.pow_pos_nonneg; lia).
  replace (1 - e)%Z with (Z.succ (- e)) by lia.
  rewrite Z.pow_succ_r by lia.
  set (h := (2 ^ (- e))%Z) in *.
  set (x := (2 * Z.pos m * pow10 f + h)%Z).
  pose proof (Z.mul_div_le x (2 * h) ltac:(lia)).
  pose proof (Z.mul_succ_div_gt x (2 * h) ltac:(lia)).
  subst x. lia.
Qed.

Lemma nearest_scaled_nonneg (f : nat) (m : positive) (e : Z) :
  (0 <= nearest_scaled f m e)%Z.
Proof.
  assert (Hp : (0 < pow10 f)%Z) by (unfold pow10; apply Z.pow_pos_nonneg; lia).
  unfold nearest_scaled. destruct (Z.leb_spec 0 e).
  - assert (0 < 2 ^ e)%Z by (apply Z.pow_pos_nonneg; lia). nia.
  - apply Z.div_pos; [| apply Z.pow_pos_nonneg; lia].
    assert (0 < 2 ^ (- e))%Z by (apply Z.pow_pos_nonneg; lia). nia.
Qed.

(* ------------------------------------------------------------------ *)
(** *** Digits *)

Lemma digits_fuel_enough (f1 f2 : nat) (n : Z) :
  (1 <= f1)%nat -> (1 <= f2)%nat ->
  (0 <= n < 2 ^ Z.of_nat f1)%Z -> (n < 2 ^ Z.of_nat f2)%Z ->
  digits_fuel f1 n = digits_fuel f2 n.
Proof.
  revert f2 n. induction f1 as [| f1 IH]; intros f2 n H1 H2 Hn1 Hn2; [lia |].
  destruct f2 as [| f2]; [lia |]. simpl digits_fuel.
  destruct (Z.ltb_spec n 10) as [Hlt | Hge]; [reflexivity |].
  f_equal.
  assert (Hq : (1 <= n / 10)%Z)
    by (apply Z.div_le_lower_bound; lia).
  assert (Hhalf : forall k : nat, (n < 2 ^ Z.of_nat (S k))%Z ->
                                  (n / 10 < 2 ^ Z.of_nat k)%Z).
  { intros k Hk. rewrite Nat2Z.inj_succ, Z.pow_succ_r in Hk by lia.
    apply Z.div_lt_upper_bound; lia. }
  assert (Hpos : forall k : nat, (1 <= n / 10 < 2 ^ Z.of_nat k)%Z -> (1 <= k)%nat).
  { intros [| k] Hk; [simpl in Hk; lia | lia]. }
  apply IH.
  - apply Hpos. split; [lia | apply Hhalf; lia].
  - apply Hpos. split; [lia | apply Hhalf; lia].
  - split; [lia | apply Hhalf; lia].
  - apply Hhalf; lia.
Qed.

Lemma log2_fuel (n : Z) :
  (0 <= n)%Z -> (n < 2 ^ Z.of_nat (S (Z.to_nat (Z.log2 n))))%Z.
Proof.
  intros Hn. rewrite Nat2Z.inj_succ, Z2Nat.id by apply Z.log2_nonneg.
  destruct (Z.eq_dec n 0) as [-> | Hne]; [reflexivity |].
  apply Z.log2_spec. lia.
Qed.

Lemma digits_small (n : Z) : (n < 10)%Z -> digits n = digit n.
Proof.
  intros Hn. unfold digits. simpl.
  destruct (Z.ltb_spec n 10); [reflexivity | lia].
Qed.

(** The last digit of a number of more than one digit. *)
Lemma digits_step (n : Z) :
  (10 <= n)%Z -> digits n = digits (n / 10) ++ digit (n mod 10).
Proof.
  intros Hn. unfold digits at 1. simpl digits_fuel.
  destruct (Z.ltb_spec n 10); [lia |]. f_equal.
  assert (Hq : (1 <= n / 10)%Z) by (apply Z.div_le_lower_bound; lia).
  pose proof (log2_fuel n ltac:(lia)) as Hfuel.
  assert (Hlog : (1 <= Z.log2 n)%Z).
  { change 1%Z with (Z.log2 2). apply Z.log2_le_mono. lia. }
  unfold digits. apply digits_fuel_enough.
  - lia.
  - lia.
  - split; [lia |]. rewrite Z2Nat.id by lia.
    rewrite Nat2Z.inj_succ, Z2Nat.id, Z.pow_succ_r in Hfuel by lia.
    apply Z.div_lt_upper_bound; lia.
  - apply log2_fuel. lia.
Qed.

Lemma length_digit (d : Z) : String.length (digit d) = 1%nat.
Proof. reflexivity. Qed.

Lemma length_append (a b : string) :
  String.length (a ++ b) = (String.length a + String.length b)%nat.
Proof. induction a; simpl; [reflexivity | now rewrite IHa]. Qed.

Lemma append_assoc (a b c : string) : (a ++ b) ++ c = a ++ b ++ c.
Proof. induction a; simpl; [reflexivity | now rewrite IHa]. Qed.

Lemma substring_all (a : string) : substring 0 (String.length a) a = a.
Proof. induction a; simpl; [reflexivity | now rewrite IHa]. Qed.

Lemma substring_prefix (a b : string) :
  substring 0 (String.length a) (a ++ b) = a.
Proof.
  induction a; simpl; [now destruct b | now rewrite IHa].
Qed.

Lemma substring_suffix (a b : string) :
  substring (String.length a) (String.length b) (a ++ b) = b.
Proof.
  induction a; simpl; [apply substring_all | exact IHa].
Qed.

Lemma length_digits_pos (n : Z) : (0 <= n)%Z -> (1 <= String.length (digits n))%nat.
Proof.
  intros Hn. destruct (Z.ltb_spec n 10) as [Hlt | Hge].
  - now rewrite digits_small.
  - rewrite digits_step, length_append, length_digit by assumption. lia.
Qed.

(** With two fraction digits, the text is the integer part, a point and
    the two digits of the hundredths. *)
Lemma place_point_two (n : Z) :
  (0 <= n)%Z ->
  place_point 2 n
  = digits (n / 100) ++ "." ++ digit (n / 10 mod 10) ++ digit (n mod 10).
Proof.
  intros Hn. unfold place_point. simpl Nat.eqb. cbv iota.
  destruct (Z.ltb_spec n 10) as [H10 | H10].
  - (* one digit *)
    rewrite (digits_small n H10).
    rewrite (Z.div_small n 100), (Z.div_small n 10), (Z.mod_small n 10) by lia.
    reflexivity.
  - rewrite (digits_step n H10).
    destruct (Z.ltb_spec n 100) as [H100 | H100].
    + (* two digits *)
      assert (Hq : (n / 10 < 10)%Z) by (apply Z.div_lt_upper_bound; lia).
      rewrite (digits_small (n / 10) Hq).
      assert (Hq0 : (0 <= n / 10)%Z) by (apply Z.div_pos; lia).
      rewrite (Z.div_small n 100), (Z.mod_small (n / 10) 10) by lia.
      reflexivity.
    + (* three digits or more *)
      assert (Hq : (10 <= n / 10)%Z) by (apply Z.div_le_lower_bound; lia).
      rewrite (digits_step (n / 10) Hq).
      rewrite Z.div_div by lia. change (10 * 10)%Z with 100%Z.
      assert (Hlen : (1 <= String.length (digits (n / 100)))%nat)
        by (apply length_digits_pos; apply Z.div_pos; lia).
      set (a := digits (n / 100)) in *.
      set (d1 := digit (n / 10 mod 10)). set (d2 := digit (n mod 10)).
      assert (Hl : String.length ((a ++ d1) ++ d2) = (String.length a + 2)%nat).
      { rewrite !length_append. unfold d1, d2. rewrite !length_digit. lia. }
      rewrite Hl.
      destruct (Nat.leb_spec (String.length a + 2) 2) as [Hle | Hgt]; [lia |].
      rewrite Hl.
      replace (String.length a + 2 - 2)%nat with (String.length a) by lia.
      rewrite append_assoc, substring_prefix.
      change 2%nat with (String.length (d1 ++ d2)) at 1.
      rewrite substring_suffix. reflexivity.
Qed.

End NumFacts.

(* ================================================================== *)
(** ** Submission *)
(* ================================================================== *)

Module Submission.

Import Js JsFacts App Validation FormState.

(** Each of the twelve required names, humanized, is the name with a
    space for every hyphen and a capital at the start of every word. *)
Lemma humanize_required_names (k : string) :
  In k REQUIRED_FEATURES -> humanize k = title_pass true k.
Proof.
  intros Hk. unfold REQUIRED_FEATURES in Hk. simpl in Hk.
  repeat (destruct Hk as [<- | Hk]; [reflexivity |]). contradiction.
Qed.

(** C1.  When some required feature holds the empty string, [handleSubmit]
    stops after validation: no request is sent, loading is reset, and the
    error message is the fixed prefix followed by the comma-separated list
    of the humanized names of exactly the required features that hold the
    empty string.  The humanized name is the name split on hyphens, each
    word capitalized, the words joined by spaces: for the twelve required
    names, the texts listed below. *)
Theorem handleSubmit_rejects_empty_required VITE env st :
  (exists k, In k REQUIRED_FEATURES /\ In (k, "") (entries (features st))) ->
  let missing := keys (emptyRequiredEntries (features st)) in
  let message := "Please fill in all required fields: "
                 ++ join ", " (map humanize missing) in
  (forall k, In k missing <->
             In k REQUIRED_FEATURES /\ In (k, "") (entries (features st))) /\
  (NoDup (keys (features st)) -> NoDup missing) /\
  (forall k, In k missing -> humanize k = title_pass true k) /\
  map humanize REQUIRED_FEATURES
  = [ "Odor"; "Spore Print Color"; "Gill Color"; "Cap Color"; "Bruises";
      "Ring Type"; "Gill Spacing"; "Cap Shape"; "Population"; "Habitat";
      "Stalk Surface Above Ring"; "Cap Surface" ] /\
  run env (handleSubmit VITE (features st)) st =
    (inr tt,
     {| result := result st; loading := false;
        error := Some (JString message);
        imagePreview := imagePreview st; features := features st |},
     [ Ev preventDefault; Ev (setLoading true); Ev (setError None);
       Ev (setError (Some (JString message))); Ev (setLoading false) ]) /\
  filter is_network (trace env (handleSubmit VITE (features st)) st) = [].
Proof.
  intros [k0 [Hreq Hin]]. cbv zeta.
  split; [apply emptyRequiredKeys_In |].
  split; [apply keys_filter_NoDup |].
  split.
  { intros k Hk. apply humanize_required_names.
    now apply emptyRequiredKeys_In in Hk. }
  split; [reflexivity |].
  assert (Hk : In k0 (keys (emptyRequiredEntries (features st))))
    by (apply emptyRequiredKeys_In; now split).
  pose proof (emptyRequiredFields_names (features st)) as Hnames.
  destruct (emptyRequiredFields (features st)) as [| f rest] eqn:E.
  - exfalso. apply (in_map humanize) in Hk. rewrite <- Hnames in Hk. exact Hk.
  - rewrite <- Hnames. unfold trace.
    rewrite (run_handleSubmit_rejected VITE env st _ f rest E).
    split; reflexivity.
Qed.

Lemma handleSubmit_rejects_empty_required_witness :
  (exists k, In k REQUIRED_FEATURES
             /\ In (k, "") (entries (features (Sample.state_of Sample.partly_filled))))
  /\ run (Sample.server_up []) (handleSubmit None Sample.partly_filled)
         (Sample.state_of Sample.partly_filled) =
       (inr tt,
        {| result := None; loading := false;
           error := Some (JString
             "Please fill in all required fields: Odor, Spore Print Color");
           imagePreview := None; features := Sample.partly_filled |},
        [ Ev preventDefault; Ev (setLoading true); Ev (setError None);
          Ev (setError (Some (JString
             "Please fill in all required fields: Odor, Spore Print Color")));
          Ev (setLoading false) ]).
Proof.
  assert (H : exists k, In k REQUIRED_FEATURES
             /\ In (k, "") (entries (features (Sample.state_of Sample.partly_filled)))).
  { exists "odor". split; [simpl; tauto | vm_compute; tauto]. }
  split; [exact H |].
  exact (proj1 (proj2 (proj2 (proj2 (proj2
    (handleSubmit_rejects_empty_required None (Sample.server_up [])
       (Sample.state_of Sample.partly_filled) H)))))).
Defined.

Example missing_fields_message :
  error (final (Sample.server_up []) (handleSubmit None Sample.partly_filled)
           (Sample.state_of Sample.partly_filled))
  = Some (JString "Please fill in all required fields: Odor, Spore Print Color").
Proof. reflexivity. Qed.

(** C2.  When no required feature holds the empty string, [handleSubmit]
    calls the network exactly once: a POST to the prediction endpoint
    whose body is the whole [features] object.  For a form reached from
    its initial state by selections, that object has every key of the
    feature table, and every feature never selected holds the empty
    string. *)
Theorem handleSubmit_posts_full_mapping VITE env st :
  (forall k, In k REQUIRED_FEATURES -> ~ In (k, "") (entries (features st))) ->
  filter is_network (trace env (handleSubmit VITE (features st)) st)
    = [Ev (axios_post (API_URL VITE ++ "/predict") (features st))] /\
  (forall (fd : obj (obj string)) (changes : list (string * string)),
     NoDup (keys fd) -> ~ In "__proto__" (keys fd) ->
     (forall k v, In (k, v) changes -> In k (keys fd)) ->
     features st = features (after_changes env changes (initialState fd)) ->
     keys (features st) = keys fd /\
     forall k, In k (keys fd) -> ~ In k (map fst changes) ->
               In (k, "") (entries (features st))).
Proof.
  intros Hfilled. split.
  - apply validation_passes_iff in Hfilled. unfold trace.
    rewrite (run_handleSubmit_accepted VITE env st _ Hfilled).
    destruct (reply_post env (API_URL VITE ++ "/predict") (features st));
      reflexivity.
  - intros fd changes Hnd Hproto Hchanges ->.
    assert (Hinit : features (initialState fd) = map (fun k => (k, "")) (keys fd))
      by (apply initialFeatures_all_empty; assumption).
    destruct (after_changes_frame env changes (initialState fd)) as [Hkeys Hget].
    { intros k v Hkv. rewrite Hinit, keys_map_empty. eauto. }
    rewrite Hkeys, Hinit, keys_map_empty. split; [reflexivity |].
    intros k Hk Huntouched. apply get_In.
    rewrite (Hget k Huntouched), Hinit. now apply get_map_empty.
Qed.

(** The form of the sample table after the selections that give
    [Sample.filled]: the three optional features were never selected and
    travel as empty strings. *)
Example filled_from_initial :
  features
    (after_changes (Sample.server_up []) Sample.selections
       (initialState Sample.featureDescriptions))
  = Sample.filled.
Proof. reflexivity. Qed.

Lemma handleSubmit_posts_full_mapping_witness :
  (forall k, In k REQUIRED_FEATURES ->
             ~ In (k, "") (entries (features (Sample.state_of Sample.filled)))) /\
  filter is_network
    (trace (Sample.server_up []) (handleSubmit None Sample.filled)
           (Sample.state_of Sample.filled))
    = [Ev (axios_post "http://localhost:5000/predict" Sample.filled)] /\
  keys Sample.filled = keys Sample.featureDescriptions /\
  (forall k, In k (keys Sample.featureDescriptions) ->
             ~ In k (map fst Sample.selections) ->
             In (k, "") (entries Sample.filled)).
Proof.
  assert (H : forall k, In k REQUIRED_FEATURES ->
             ~ In (k, "") (entries (features (Sample.state_of Sample.filled)))).
  { apply validation_passes_iff. reflexivity. }
  assert (Hnd : NoDup (keys Sample.featureDescriptions)).
  { unfold Sample.featureDescriptions, keys. simpl.
    repeat (constructor; [simpl; intuition discriminate |]). constructor. }
  assert (Hproto : ~ In "__proto__" (keys Sample.featureDescriptions)).
  { apply hasOwn_false. reflexivity. }
  assert (Hsel : forall k v, In (k, v) Sample.selections ->
                             In k (keys Sample.featureDescriptions)).
  { intros k v Hin. apply includes_In.
    assert (Hall : forallb (fun kv => includes (keys Sample.featureDescriptions)
                                               (fst kv))
                           Sample.selections = true) by reflexivity.
    rewrite forallb_forall in Hall. exact (Hall (k, v) Hin). }
  split; [exact H |].
  destruct (handleSubmit_posts_full_mapping None (Sample.server_up [])
              (Sample.state_of Sample.filled) H) as [Hpost Hfull].
  split; [exact Hpost |].
  exact (Hfull Sample.featureDescriptions Sample.selections
           Hnd Hproto Hsel eq_refl).
Defined.



(** A reply with status 200 and the body [null] clears the verdict of
    an earlier submission. *)
Example null_body_clears_result :
  result (final Sample.server_null_body
            (handleSubmit None (features Sample.settled)) Sample.settled)
  = None.
Proof. reflexivity. Qed.




(** A rejection whose [error] field is an object: the object itself
    becomes the stored error. *)
Example object_error_is_stored :
  error (final (Sample.server_failing
                  (Sample.rejection (JObject [("code", JNumber 7)])))
           (handleSubmit None (features Sample.settled)) Sample.settled)
  = Some (JObject [("code", JNumber 7)]).
Proof. reflexivity. Qed.

End Submission.

(* ================================================================== *)
(** ** Image upload *)
(* ================================================================== *)

Module Upload.

Import Js JsFacts App.

(** The run of an upload whose analysis succeeds: the server answers with
    an [ok] response whose body parses to an object. *)
Lemma run_handleImageUpload_success VITE env st fs file files response d :
  reply_fetch env (API_URL VITE ++ "/analyze-image")
              {| method := "POST"; body := [("image", file)] |} = inr response ->
  ok response = true ->
  json response = inr (data_object d) ->
  run env (handleImageUpload VITE fs (Some (file :: files))) st =
    (inr tt,
     {| result := result st; loading := false; error := error st;
        imagePreview := Some (object_url env file);
        features := match d with
                    | Some detected => mergeDetected fs detected
                    | None => features st
                    end |},
     ([ Ev (createObjectURL file); Ev (setImagePreview (object_url env file));
        Ev (setLoading true);
        Ev (fetch (API_URL VITE ++ "/analyze-image")
                  {| method := "POST"; body := [("image", file)] |});
        Ev (console_log "Image analysis results:" (data_object d)) ]
      ++ match d with
         | Some detected => [Ev (setFeatures (mergeDetected fs detected))]
         | None => []
         end
      ++ [Ev (setLoading false)])%list).
Proof.
  intros Hfetch Hok Hjson. unfold handleImageUpload. simpl.
  rewrite Hfetch. simpl. rewrite Hok. simpl. rewrite Hjson. simpl.
  destruct d as [detected |]; reflexivity.
Qed.

(** C8.  With no file selected ([files] is [null] or empty) the handler
    returns at once: the state is the one it started from and no effect
    is performed, so no request is sent. *)
Theorem upload_without_file_is_noop VITE env st fs files :
  files = None \/ files = Some [] ->
  run env (handleImageUpload VITE fs files) st = (inr tt, st, []).
Proof.
  intros [-> | ->]; reflexivity.
Qed.

Lemma upload_without_file_is_noop_witness :
  (@None (list File) = None \/ @None (list File) = Some []) /\
  run (Sample.server_up []) (handleImageUpload None Sample.filled None)
      Sample.failed = (inr tt, Sample.failed, []).
Proof.
  split; [now left |].
  exact (upload_without_file_is_noop None (Sample.server_up []) Sample.failed
           Sample.filled None (or_introl eq_refl)).
Defined.

(** C9.  A submission starts by clearing the error: its first effects
    are [preventDefault], [setLoading(true)] and [setError(null)], before
    the outcome of validation shows.  An upload whose analysis succeeds
    performs no [setError]: the error message it found is still there. *)
Theorem submit_clears_error_upload_keeps_it VITE env st :
  (exists rest,
     trace env (handleSubmit VITE (features st)) st
     = Ev preventDefault :: Ev (setLoading true) :: Ev (setError None) :: rest /\
     nth_error (states_along (trace env (handleSubmit VITE (features st)) st) st) 2
     = Some {| result := result st; loading := true; error := None;
               imagePreview := imagePreview st; features := features st |}) /\
  (forall file files response d,
     reply_fetch env (API_URL VITE ++ "/analyze-image")
                 {| method := "POST"; body := [("image", file)] |} = inr response ->
     ok response = true ->
     json response = inr (data_object d) ->
     let p := handleImageUpload VITE (features st) (Some (file :: files)) in
     outcome env p st = inr tt /\
     filter is_setError (trace env p st) = [] /\
     Forall (fun s => error s = error st) (states_along (trace env p st) st) /\
     error (final env p st) = error st).
Proof.
  split.
  - unfold trace.
    destruct (emptyRequiredFields (features st)) as [| f rest] eqn:E.
    + rewrite (Validation.run_handleSubmit_accepted VITE env st _ E).
      destruct (reply_post env (API_URL VITE ++ "/predict") (features st));
        eexists; split; reflexivity.
    + rewrite (Validation.run_handleSubmit_rejected VITE env st _ f rest E).
      eexists; split; reflexivity.
  - intros file files response d Hfetch Hok Hjson. cbv zeta.
    unfold outcome, trace, final.
    rewrite (run_handleImageUpload_success VITE env st (features st)
               file files response d Hfetch Hok Hjson).
    destruct d as [detected |]; simpl;
      (split; [reflexivity |]); (split; [reflexivity |]);
      (split; [repeat constructor | reflexivity]).
Qed.

Lemma submit_clears_error_upload_keeps_it_witness :
  reply_fetch (Sample.server_up [("odor", "n")])
              (API_URL None ++ "/analyze-image")
              {| method := "POST"; body := [("image", Sample.photo)] |}
    = inr {| ok := true; json := inr (data_object (Some [("odor", "n")])) |} /\
  ok {| ok := true; json := inr (data_object (Some [("odor", "n")])) |} = true /\
  json {| ok := true; json := inr (data_object (Some [("odor", "n")])) |}
    = inr (data_object (Some [("odor", "n")])) /\
  error Sample.failed = Some (JString "Failed to get prediction. Please try again.") /\
  error (final (Sample.server_up [("odor", "n")])
           (handleImageUpload None (features Sample.failed) (Some [Sample.photo]))
           Sample.failed)
    = Some (JString "Failed to get prediction. Please try again.").
Proof.
  split; [reflexivity |]. split; [reflexivity |]. split; [reflexivity |].
  split; [reflexivity |].
  exact (proj2 (proj2 (proj2
    (proj2 (submit_clears_error_upload_keeps_it None
              (Sample.server_up [("odor", "n")]) Sample.failed)
       Sample.photo []
       {| ok := true; json := inr (data_object (Some [("odor", "n")])) |}
       (Some [("odor", "n")]) eq_refl eq_refl eq_refl)))).
Defined.

(* ------------------------------------------------------------------ *)
(** *** Merging the detected features *)

Lemma has_property_own (o : obj string) (k : string) :
  In k (keys o) -> has_property o k = true.
Proof.
  intros H. unfold has_property. apply hasOwn_In in H. now rewrite H.
Qed.

Lemma has_property_false (o : obj string) (k : string) :
  ~ In k (keys o) -> ~ In k Object_prototype_names ->
  has_property o k = false.
Proof.
  intros Hown Hproto. unfold has_property.
  apply hasOwn_false in Hown. rewrite Hown.
  destruct (includes Object_prototype_names k) eqn:E; [| reflexivity].
  apply includes_In in E. contradiction.
Qed.

(** One step of the loop, on a key that the form has. *)
Lemma merge_step_own (o : obj string) (k v : string) :
  In k (keys o) ->
  (if has_property o k then assign o k v else o) = update o k v.
Proof.
  intros H. rewrite (has_property_own o k H). unfold assign.
  apply hasOwn_In in H. now rewrite H.
Qed.

(** One step of the loop, on a key that neither the form nor
    [Object.prototype] has. *)
Lemma merge_step_unknown (o : obj string) (k v : string) :
  ~ In k (keys o) -> ~ In k Object_prototype_names ->
  (if has_property o k then assign o k v else o) = o.
Proof.
  intros Hown Hproto. now rewrite has_property_false.
Qed.

(** When no detected key is a property name of [Object.prototype], the
    loop keeps the keys of the form. *)
Lemma mergeDetected_keys (fs : MushroomFeatures) (detected : obj string) :
  (forall k, In k (keys detected) -> ~ In k Object_prototype_names) ->
  keys (mergeDetected fs detected) = keys fs.
Proof.
  unfold mergeDetected, entries. revert fs.
  induction detected as [| [k v] detected IH]; intros fs Hnames;
    [reflexivity |].
  simpl. assert (Hk : ~ In k Object_prototype_names)
    by (apply Hnames; now left).
  assert (Hrest : forall k', In k' (keys detected) ->
                             ~ In k' Object_prototype_names)
    by (intros k' Hk'; apply Hnames; now right).
  destruct (in_dec string_dec k (keys fs)) as [Hown | Hown].
  - rewrite (merge_step_own fs k v Hown), (IH _ Hrest). apply keys_update.
  - rewrite (merge_step_unknown fs k v Hown Hk). now apply IH.
Qed.

(** Under the same condition, a feature of the form takes the detected
    value when there is one and keeps its own otherwise. *)
Lemma mergeDetected_get (fs : MushroomFeatures) (detected : obj string)
    (k : string) :
  NoDup (keys detected) ->
  (forall k', In k' (keys detected) -> ~ In k' Object_prototype_names) ->
  In k (keys fs) ->
  get (mergeDetected fs detected) k =
  match get detected k with
  | Some v => Some v
  | None => get fs k
  end.
Proof.
  unfold mergeDetected, entries. revert fs.
  induction detected as [| [k' v'] detected IH]; intros fs Hnd Hnames Hk;
    [reflexivity |].
  simpl. inversion Hnd as [| ? ? Hnotin Hnd']; subst.
  assert (Hk' : ~ In k' Object_prototype_names) by (apply Hnames; now left).
  assert (Hrest : forall k0, In k0 (keys detected) ->
                             ~ In k0 Object_prototype_names)
    by (intros k0 Hk0; apply Hnames; now right).
  destruct (in_dec string_dec k' (keys fs)) as [Hown | Hown].
  - rewrite (merge_step_own fs k' v' Hown).
    rewrite IH by (try assumption; now rewrite keys_update).
    destruct (String.eqb_spec k k') as [-> | Hne].
    + assert (Hnone : get detected k' = None) by now apply get_None.
      rewrite Hnone. now apply get_update_same.
    + destruct (get detected k); [reflexivity |].
      now apply get_update_other.
  - rewrite (merge_step_unknown fs k' v' Hown Hk').
    rewrite IH by assumption.
    destruct (String.eqb_spec k k') as [-> | Hne]; [contradiction | reflexivity].
Qed.

(** C3 at the input where the code departs from it.  [key in newFeatures]
    is also true of a key that the copy of the form inherits from
    [Object.prototype]; the assignment then creates an own property.  A
    detected key ["constructor"] is therefore added to the form, though
    the feature table does not have it. *)
Theorem upload_adds_inherited_key VITE env st file files response v :
  ~ In "constructor" (keys (features st)) ->
  reply_fetch env (API_URL VITE ++ "/analyze-image")
              {| method := "POST"; body := [("image", file)] |} = inr response ->
  ok response = true ->
  json response = inr (data_object (Some [("constructor", v)])) ->
  features (final env (handleImageUpload VITE (features st) (Some (file :: files))) st)
  = (features st ++ [("constructor", v)])%list.
Proof.
  intros Hown Hfetch Hok Hjson. unfold final.
  rewrite (run_handleImageUpload_success VITE env st (features st)
             file files response _ Hfetch Hok Hjson).
  simpl. unfold mergeDetected. simpl. unfold has_property, assign.
  apply hasOwn_false in Hown. rewrite Hown. reflexivity.
Qed.

Lemma upload_adds_inherited_key_witness :
  ~ In "constructor" (keys (features (Sample.state_of Sample.filled))) /\
  In "constructor" (keys (features
    (final (Sample.server_up [("constructor", "x")])
       (handleImageUpload None (features (Sample.state_of Sample.filled))
          (Some [Sample.photo]))
       (Sample.state_of Sample.filled)))) /\
  ~ In "constructor" (keys Sample.featureDescriptions).
Proof.
  assert (H : ~ In "constructor" (keys (features (Sample.state_of Sample.filled)))).
  { apply hasOwn_false. reflexivity. }
  split; [exact H |]. split.
  - rewrite (upload_adds_inherited_key None (Sample.server_up [("constructor", "x")])
               (Sample.state_of Sample.filled) Sample.photo [] _ "x"
               H eq_refl eq_refl eq_refl).
    unfold keys. rewrite map_app, in_app_iff. right. now left.
  - apply hasOwn_false. reflexivity.
Defined.

End Upload.

Module Completeness.

Import Js JsFacts App Validation.

(** C10.  Validation looks only at the entries of the [features] object.
    A required name that is not a key of the object is not among the
    names reported, and does not stop the submission: the request is sent
    as soon as no entry of a required feature is empty, and with no
    entries at all.  When every required name is a key, validation passes
    exactly when every required feature has a non-empty value. *)
Theorem validation_inspects_present_keys_only VITE env st :
  (forall k, ~ In k (keys (features st)) ->
             ~ In k (keys (emptyRequiredEntries (features st)))) /\
  ((forall k v, In k REQUIRED_FEATURES -> In (k, v) (entries (features st)) ->
                v <> "") ->
   filter is_network (trace env (handleSubmit VITE (features st)) st)
   = [Ev (axios_post (API_URL VITE ++ "/predict") (features st))]) /\
  filter is_network (trace env (handleSubmit VITE []) st)
  = [Ev (axios_post (API_URL VITE ++ "/predict") [])] /\
  (NoDup (keys (features st)) ->
   (forall k, In k REQUIRED_FEATURES -> In k (keys (features st))) ->
   (emptyRequiredFields (features st) = [] <->
    forall k, In k REQUIRED_FEATURES ->
              exists v, get (features st) k = Some v /\ v <> "")).
Proof.
  split; [| split; [| split]].
  - intros k Hk Hin. apply emptyRequiredKeys_In in Hin.
    destruct Hin as [_ Hin]. apply Hk.
    unfold keys. change k with (fst (k, "")). now apply in_map.
  - intros Hpresent.
    assert (E : emptyRequiredFields (features st) = []).
    { apply validation_passes_iff. intros k Hreq Hin.
      now apply (Hpresent k "" Hreq Hin). }
    unfold trace. rewrite (run_handleSubmit_accepted VITE env st _ E).
    destruct (reply_post env (API_URL VITE ++ "/predict") (features st));
      reflexivity.
  - unfold trace.
    rewrite (run_handleSubmit_accepted VITE env st [] eq_refl).
    destruct (reply_post env (API_URL VITE ++ "/predict") []); reflexivity.
  - intros Hnd Hkeys. rewrite validation_passes_iff. split.
    + intros Hall k Hreq.
      destruct (get (features st) k) as [v |] eqn:Hget.
      * exists v. split; [reflexivity |]. intros ->.
        apply (Hall k Hreq). now apply get_In.
      * exfalso. apply get_None in Hget. auto.
    + intros Hall k Hreq Hin. destruct (Hall k Hreq) as [v [Hget Hv]].
      rewrite (In_get _ _ _ Hnd Hin) in Hget. congruence.
Qed.

End Completeness.

(* ================================================================== *)
(** ** The API client *)
(* ================================================================== *)

Module ApiFacts.

Import Api.

(** C5.  Each client function sends one request.  When the request
    succeeds the function returns the body of the response.  When it
    fails the function logs the error and throws that same error. *)
Theorem client_returns_body_or_rethrows env features imageFile :
  (match reply_post env api "/api/predict" (json_payload features) [] with
   | inr response =>
       run env (predictMushroom features)
       = (inr (data response),
          [Ev (post api "/api/predict" (json_payload features) [])])
   | inl error =>
       run env (predictMushroom features)
       = (inl error,
          [Ev (post api "/api/predict" (json_payload features) []);
           Ev (console_error "Error predicting mushroom:" error)])
   end) /\
  (match reply_post env api "/analyze-image"
           (form_payload [("image", imageFile)])
           [("Content-Type", "multipart/form-data")] with
   | inr response =>
       run env (analyzeImage imageFile)
       = (inr (data response),
          [Ev (post api "/analyze-image" (form_payload [("image", imageFile)])
                 [("Content-Type", "multipart/form-data")])])
   | inl error =>
       run env (analyzeImage imageFile)
       = (inl error,
          [Ev (post api "/analyze-image" (form_payload [("image", imageFile)])
                 [("Content-Type", "multipart/form-data")]);
           Ev (console_error "Error analyzing image:" error)])
   end) /\
  (match reply_get env api "/api/health" with
   | inr response =>
       run env checkHealth
       = (inr (data response), [Ev (get api "/api/health")])
   | inl error =>
       run env checkHealth
       = (inl error,
          [Ev (get api "/api/health");
           Ev (console_error "Error checking health:" error)])
   end) /\
  requests (snd (run env (predictMushroom features))) = 1%nat /\
  requests (snd (run env (analyzeImage imageFile))) = 1%nat /\
  requests (snd (run env checkHealth)) = 1%nat.
Proof.
  unfold predictMushroom, analyzeImage, checkHealth. simpl.
  destruct (reply_post env api "/api/predict" (json_payload features) []);
    destruct (reply_post env api "/analyze-image"
                (form_payload [("image", imageFile)])
                [("Content-Type", "multipart/form-data")]);
    destruct (reply_get env api "/api/health");
    repeat split; reflexivity.
Qed.

Example predictMushroom_server_down :
  run Sample.api_down (predictMushroom Sample.filled)
  = (inl Sample.network_error,
     [Ev (post api "/api/predict" (json_payload Sample.filled) []);
      Ev (console_error "Error predicting mushroom:" Sample.network_error)]).
Proof. reflexivity. Qed.

Example checkHealth_server_up :
  fst (run Sample.api_up checkHealth)
  = inr (JObject [("status", JString "healthy")]).
Proof. reflexivity. Qed.

End ApiFacts.

(* ================================================================== *)
(** ** The result panel *)
(* ================================================================== *)

Module Rendering.

Import Num NumFacts App.

Lemma list_ascii_of_append (a b : string) :
  list_ascii_of_string (a ++ b)
  = (list_ascii_of_string a ++ list_ascii_of_string b)%list.
Proof. induction a; simpl; [reflexivity | now rewrite IHa]. Qed.

Lemma is_digit_digit (d : Z) :
  (0 <= d < 10)%Z ->
  is_digit (ascii_of_nat (48 + Z.to_nat d)) = true.
Proof.
  intros Hd. unfold is_digit. rewrite nat_ascii_embedding by lia.
  apply andb_true_iff. split; apply Nat.leb_le; lia.
Qed.

Lemma ends_with_two_decimals_percent_intro (a : string) (x y : Z) :
  (0 <= x < 10)%Z -> (0 <= y < 10)%Z ->
  ends_with_two_decimals_percent (a ++ "." ++ digit x ++ digit y ++ "%") = true.
Proof.
  intros Hx Hy. unfold ends_with_two_decimals_percent, digit.
  pose proof (is_digit_digit x Hx) as Dx.
  pose proof (is_digit_digit y Hy) as Dy.
  set (cx := ascii_of_nat (48 + Z.to_nat x)) in *.
  set (cy := ascii_of_nat (48 + Z.to_nat y)) in *.
  rewrite list_ascii_of_append.
  change (list_ascii_of_string ("." ++ String cx "" ++ String cy "" ++ "%"))
    with ["."%char; cx; cy; "%"%char].
  rewrite rev_app_distr.
  change (rev ["."%char; cx; cy; "%"%char]) with ["%"%char; cy; cx; "."%char].
  cbn [app]. now rewrite Dx, Dy.
Qed.

(** C4 as the specification words it fails: a confidence that JSON can
    carry and whose product with 100 overflows is shown as [Infinity%],
    not with two decimals. *)
Lemma overflowing_confidence_not_two_decimals :
  let r := {| prediction := edible; confidence := 0x1.c7b1f3cac7433p+1019 |} in
  confidence_line Sample.no_exponent_notation r = "Confidence: Infinity%" /\
  ends_with_two_decimals_percent
    (confidence_line Sample.no_exponent_notation r) = false.
Proof. cbv zeta. split; vm_compute; reflexivity. Qed.

(** When the product of the confidence and 100 is finite and below
    [10^21] in magnitude, the confidence line is that product rounded to
    the nearest hundredth (ties away from zero), written with its sign,
    its integer part, a point and two digits, followed by the percent
    sign.  [n] below is the nearest integer to the hundredfold of the
    magnitude [m * 2^e] of the product, whatever its size. *)
Lemma two_decimals_below_1e21 N r :
  finite_below_1e21 (confidence r * 100) = true ->
  let product := (confidence r * 100)%float in
  let n := hundredths product in
  render_result N (Some r)
  = Some ("This mushroom is predicted to be " ++ prediction_text (prediction r),
          "Confidence: " ++ sign_text product
            ++ digits (n / 100) ++ "." ++ digit (n / 10 mod 10)
            ++ digit (n mod 10) ++ "%") /\
  ends_with_two_decimals_percent (confidence_line N r) = true /\
  (forall s, Prim2SF product = S754_zero s -> n = 0%Z) /\
  (forall s m e, Prim2SF product = S754_finite s m e ->
     (sign_text product = if s then "-" else "") /\
     ((0 <= e)%Z -> n = (100 * (Z.pos m * 2 ^ e))%Z) /\
     ((e < 0)%Z ->
      (2 * n * 2 ^ (- e) - 2 ^ (- e) <= 200 * Z.pos m
       < 2 * n * 2 ^ (- e) + 2 ^ (- e))%Z)).
Proof.
  intros Hfin. cbv zeta.
  set (product := (confidence r * 100)%float) in *.
  assert (Hn : (0 <= hundredths product)%Z).
  { unfold hundredths. destruct (Prim2SF product);
      try lia; apply nearest_scaled_nonneg. }
  assert (Hline : confidence_line N r
                  = "Confidence: " ++ sign_text product
                      ++ digits (hundredths product / 100) ++ "."
                      ++ digit (hundredths product / 10 mod 10)
                      ++ digit (hundredths product mod 10) ++ "%").
  { unfold confidence_line. fold product.
    assert (Hfixed : toFixed N 2 product
                     = sign_text product ++ place_point 2 (hundredths product)).
    { unfold toFixed, finite_below_1e21, sign_text, hundredths in *.
      destruct (Prim2SF product) as [z | i | | s m e]; try discriminate.
      - reflexivity.
      - apply negb_true_iff in Hfin. rewrite Hfin. now destruct s. }
    rewrite Hfixed, (place_point_two _ Hn). now rewrite !append_assoc. }
  split; [| split; [| split]].
  - unfold render_result, heading. now rewrite Hline.
  - rewrite Hline.
    replace ("Confidence: " ++ sign_text product
             ++ digits (hundredths product / 100) ++ "."
             ++ digit (hundredths product / 10 mod 10)
             ++ digit (hundredths product mod 10) ++ "%")
      with ((("Confidence: " ++ sign_text product)
             ++ digits (hundredths product / 100)) ++ "."
             ++ digit (hundredths product / 10 mod 10)
             ++ digit (hundredths product mod 10) ++ "%")
      by (now rewrite !append_assoc).
    apply ends_with_two_decimals_percent_intro;
      apply Z.mod_pos_bound; lia.
  - intros s Hz. unfold hundredths. now rewrite Hz.
  - intros s m e Hsf. unfold sign_text, hundredths. rewrite Hsf.
    split; [now destruct s |]. split.
    + intros He. rewrite (nearest_scaled_exact 2 m e He).
      change (pow10 2) with 100%Z. lia.
    + intros He. pose proof (nearest_scaled_bounds 2 m e He) as Hb.
      cbv zeta in Hb. change (pow10 2) with 100%Z in Hb. lia.
Qed.

(** The remaining products: the line is the default text of the number,
    followed by the percent sign. *)
Lemma default_text_from_1e21 N r :
  finite_below_1e21 (confidence r * 100) = false ->
  confidence_line N r
  = "Confidence: " ++ default_number_string N (confidence r * 100)%float ++ "%".
Proof.
  intros Hfin. unfold confidence_line, toFixed, default_number_string,
    finite_below_1e21 in *.
  destruct (Prim2SF (confidence r * 100)) as [z | i | | s m e];
    try discriminate; try reflexivity.
  apply negb_false_iff in Hfin. now rewrite Hfin.
Qed.

(** C4, amended.  The confidence line is the product of the confidence
    and 100, in binary64, printed by [toFixed(2)] and followed by the
    percent sign; nothing clamps the value.  When the product is finite
    and below [10^21] in magnitude, the text is the product rounded to
    the nearest hundredth (ties away from zero), with its sign, its
    integer part, a point and two digits: [n] below is the nearest
    integer to the hundredfold of the magnitude [m * 2^e] of the
    product, whatever its size.  In every other case the text is the
    default text of the number: [NaN], [Infinity] or [-Infinity] for a
    product that is not finite, and for a finite product of magnitude
    [10^21] or more the conversion of the host, without two decimals
    of its own.  The heading names the prediction. *)
Theorem confidence_rendered_to_two_decimals N r :
  let product := (confidence r * 100)%float in
  let n := hundredths product in
  (finite_below_1e21 product = true ->
   render_result N (Some r)
   = Some ("This mushroom is predicted to be " ++ prediction_text (prediction r),
           "Confidence: " ++ sign_text product
             ++ digits (n / 100) ++ "." ++ digit (n / 10 mod 10)
             ++ digit (n mod 10) ++ "%") /\
   ends_with_two_decimals_percent (confidence_line N r) = true /\
   (forall s, Prim2SF product = S754_zero s -> n = 0%Z) /\
   (forall s m e, Prim2SF product = S754_finite s m e ->
      (sign_text product = if s then "-" else "") /\
      ((0 <= e)%Z -> n = (100 * (Z.pos m * 2 ^ e))%Z) /\
      ((e < 0)%Z ->
       (2 * n * 2 ^ (- e) - 2 ^ (- e) <= 200 * Z.pos m
        < 2 * n * 2 ^ (- e) + 2 ^ (- e))%Z))) /\
  (finite_below_1e21 product = false ->
   render_result N (Some r)
   = Some ("This mushroom is predicted to be " ++ prediction_text (prediction r),
           "Confidence: " ++ default_number_string N product ++ "%") /\
   (Prim2SF product = S754_nan ->
    confidence_line N r = "Confidence: NaN%") /\
   (Prim2SF product = S754_infinity false ->
    confidence_line N r = "Confidence: Infinity%") /\
   (Prim2SF product = S754_infinity true ->
    confidence_line N r = "Confidence: -Infinity%") /\
   (forall s m e, Prim2SF product = S754_finite s m e ->
      at_least_1e21 m e = true /\
      confidence_line N r = "Confidence: " ++ N product ++ "%")) /\
  (finite_below_1e21 product = true \/
   (finite_below_1e21 product = false /\
    match Prim2SF product with
    | S754_nan | S754_infinity _ => True
    | S754_finite _ m e => at_least_1e21 m e = true
    | S754_zero _ => False
    end)).
Proof.
  cbv zeta. split; [| split].
  - intros Hfin. exact (two_decimals_below_1e21 N r Hfin).
  - intros Hfin. pose proof (default_text_from_1e21 N r Hfin) as Hline.
    split; [unfold render_result, heading; now rewrite Hline |].
    rewrite Hline. unfold default_number_string, finite_below_1e21 in *.
    destruct (Prim2SF (confidence r * 100)) as [z | i | | s m e];
      try discriminate.
    + split; [discriminate |].
      split; [intros [= ->]; reflexivity |].
      split; [intros [= ->]; reflexivity |].
      intros s m e. discriminate.
    + split; [reflexivity |].
      split; [discriminate |].
      split; [discriminate |].
      intros s m e. discriminate.
    + apply negb_false_iff in Hfin.
      split; [discriminate |].
      split; [discriminate |].
      split; [discriminate |].
      intros s0 m0 e0 [= -> -> ->]. split; [exact Hfin | reflexivity].
  - unfold finite_below_1e21.
    destruct (Prim2SF (confidence r * 100)) as [z | i | | s m e].
    + now left.
    + right. now split.
    + right. now split.
    + destruct (at_least_1e21 m e); [right; now split | now left].
Qed.

(** The example of the specification: a verdict [poisonous] with
    confidence 0.87. *)
Lemma confidence_rendered_to_two_decimals_witness :
  finite_below_1e21 (confidence Sample.verdict * 100) = true /\
  render_result Sample.no_exponent_notation (Some Sample.verdict)
  = Some ("This mushroom is predicted to be poisonous", "Confidence: 87.00%").
Proof.
  split; [reflexivity |].
  exact (proj1
    (proj1 (confidence_rendered_to_two_decimals Sample.no_exponent_notation
              Sample.verdict) eq_refl)).
Defined.

(** Confidences outside [0, 1] are shown as they come. *)
Example confidence_above_one :
  confidence_line Sample.no_exponent_notation
    {| prediction := edible; confidence := 1.5 |} = "Confidence: 150.00%".
Proof. vm_compute. reflexivity. Qed.

Example confidence_below_zero :
  confidence_line Sample.no_exponent_notation
    {| prediction := edible; confidence := -0.25 |} = "Confidence: -25.00%".
Proof. vm_compute. reflexivity. Qed.

End Rendering.

(* ================================================================== *)
(** ** Selections in the form *)
(* ================================================================== *)

Module FeatureChange.

Import Js JsFacts App FormState.

Lemma hasOwn_update {V} (o : obj V) (k k' : string) (v : V) :
  hasOwn (update o k v) k' = hasOwn o k'.
Proof. unfold hasOwn. now rewrite keys_update. Qed.

Lemma update_twice {V} (o : obj V) (k : string) (v1 v2 : V) :
  update (update o k v1) k v2 = update o k v2.
Proof.
  induction o as [| [k' v'] o IH]; simpl; [reflexivity |].
  destruct (String.eqb k k') eqn:E; simpl; rewrite E;
    [reflexivity | now rewrite IH].
Qed.

Lemma update_new_entry {V} (o : obj V) (k : string) (v1 v2 : V) :
  ~ In k (keys o) ->
  update (o ++ [(k, v1)])%list k v2 = (o ++ [(k, v2)])%list.
Proof.
  unfold keys. induction o as [| [k' v'] o IH]; simpl; intros Hk.
  - now rewrite String.eqb_refl.
  - destruct (String.eqb_spec k k') as [-> | Hne]; [tauto |].
    rewrite IH; [reflexivity | tauto].
Qed.

Lemma update_swap {V} (o : obj V) (k1 k2 : string) (v1 v2 : V) :
  k1 <> k2 ->
  update (update o k1 v1) k2 v2 = update (update o k2 v2) k1 v1.
Proof.
  intros Hne. induction o as [| [k' v'] o IH]; simpl; [reflexivity |].
  destruct (String.eqb_spec k1 k') as [-> | H1];
    destruct (String.eqb_spec k2 k') as [-> | H2]; simpl.
  - congruence.
  - rewrite String.eqb_refl.
    destruct (String.eqb_spec k2 k'); [congruence | reflexivity].
  - rewrite String.eqb_refl.
    destruct (String.eqb_spec k1 k'); [congruence | reflexivity].
  - destruct (String.eqb_spec k1 k'); [congruence |].
    destruct (String.eqb_spec k2 k'); [congruence |]. now rewrite IH.
Qed.

Lemma get_spread_set {V} (o : obj V) (k k0 : string) (v : V) :
  get (spread_set o k v) k0 = if String.eqb k0 k then Some v else get o k0.
Proof.
  unfold spread_set. destruct (hasOwn o k) eqn:Hown.
  - apply hasOwn_In in Hown.
    destruct (String.eqb_spec k0 k) as [-> | Hne].
    + now apply get_update_same.
    + now apply get_update_other.
  - apply hasOwn_false in Hown. rewrite get_app_new.
    destruct (String.eqb_spec k0 k) as [-> | Hne].
    + apply get_None in Hown. now rewrite Hown.
    + now destruct (get o k0).
Qed.

Lemma run_handleFeatureChange env feature value st :
  run env (handleFeatureChange feature value) st
  = (inr tt,
     {| result := result st; loading := loading st; error := error st;
        imagePreview := imagePreview st;
        features := spread_set (features st) feature value |},
     [Ev (updateFeatures (fun prev => spread_set prev feature value))]).
Proof. reflexivity. Qed.

(** X1.  A selection stores the chosen value under the feature and
    leaves every other feature, and the rest of the state, as it was.
    A feature the form already has keeps its place; one it lacks is
    added last.  No request is sent. *)
Theorem handleFeatureChange_sets_one_feature env feature value st :
  let st' := final env (handleFeatureChange feature value) st in
  get (features st') feature = Some value /\
  (forall k, k <> feature -> get (features st') k = get (features st) k) /\
  (In feature (keys (features st)) ->
   keys (features st') = keys (features st)) /\
  (~ In feature (keys (features st)) ->
   keys (features st') = (keys (features st) ++ [feature])%list) /\
  (result st', loading st', error st', imagePreview st')
  = (result st, loading st, error st, imagePreview st) /\
  filter is_network (trace env (handleFeatureChange feature value) st) = [].
Proof.
  cbv zeta. unfold final, trace. rewrite run_handleFeatureChange. simpl.
  split; [| split; [| split; [| split; [| split]]]]; try reflexivity.
  - rewrite get_spread_set. now rewrite String.eqb_refl.
  - intros k Hne. rewrite get_spread_set.
    destruct (String.eqb_spec k feature); [contradiction | reflexivity].
  - intros Hin. unfold spread_set. apply hasOwn_In in Hin. rewrite Hin.
    apply keys_update.
  - intros Hin. unfold spread_set. apply hasOwn_false in Hin. rewrite Hin.
    unfold keys. now rewrite map_app.
Qed.

(** X2.  In a series of selections the last value chosen for a feature
    is the one the form holds; a feature that was not selected keeps the
    value it had. *)
Theorem after_changes_last_selection_wins env changes st k :
  get (features (after_changes env changes st)) k
  = match get (rev changes) k with
    | Some v => Some v
    | None => get (features st) k
    end.
Proof.
  revert st. induction changes as [| [f v] changes IH]; intros st;
    [reflexivity |].
  unfold after_changes. simpl fold_left.
  fold (after_changes env changes (final env (handleFeatureChange f v) st)).
  rewrite IH. simpl rev. rewrite get_app_new.
  destruct (get (rev changes) k) as [w |]; [reflexivity |].
  rewrite features_after_change, get_spread_set.
  now destruct (String.eqb k f).
Qed.

(** X3.  Selecting twice for one feature leaves the form that the second
    selection alone gives; selections for two different features of the
    form give the same form in either order. *)
Theorem selections_compose env st f1 f2 v1 v2 :
  features (after_changes env [(f1, v1); (f1, v2)] st)
  = features (after_changes env [(f1, v2)] st) /\
  (f1 <> f2 ->
   In f1 (keys (features st)) -> In f2 (keys (features st)) ->
   features (after_changes env [(f1, v1); (f2, v2)] st)
   = features (after_changes env [(f2, v2); (f1, v1)] st)).
Proof.
  unfold after_changes. cbn [fold_left]. rewrite !features_after_change. split.
  - unfold spread_set at 2 3.
    destruct (hasOwn (features st) f1) eqn:Hown.
    + unfold spread_set. rewrite hasOwn_update, Hown. apply update_twice.
    + unfold spread_set.
      assert (Hnew : hasOwn (features st ++ [(f1, v1)])%list f1 = true).
      { apply hasOwn_In. unfold keys. rewrite map_app, in_app_iff.
        right. now left. }
      rewrite Hnew. apply update_new_entry. now apply hasOwn_false.
  - intros Hne H1 H2. apply hasOwn_In in H1. apply hasOwn_In in H2.
    unfold spread_set. rewrite H1, H2, !hasOwn_update, H1, H2.
    now apply update_swap.
Qed.

Lemma selections_compose_witness :
  "odor" <> "habitat" /\
  In "odor" (keys (features (Sample.state_of Sample.filled))) /\
  In "habitat" (keys (features (Sample.state_of Sample.filled))) /\
  features (after_changes (Sample.server_up [])
              [("odor", "n"); ("habitat", "d")] (Sample.state_of Sample.filled))
  = features (after_changes (Sample.server_up [])
                [("habitat", "d"); ("odor", "n")] (Sample.state_of Sample.filled)).
Proof.
  assert (Hne : "odor" <> "habitat") by discriminate.
  assert (H1 : In "odor" (keys (features (Sample.state_of Sample.filled))))
    by (apply hasOwn_In; reflexivity).
  assert (H2 : In "habitat" (keys (features (Sample.state_of Sample.filled))))
    by (apply hasOwn_In; reflexivity).
  split; [exact Hne |]. split; [exact H1 |]. split; [exact H2 |].
  exact (proj2 (selections_compose (Sample.server_up [])
                  (Sample.state_of Sample.filled) "odor" "habitat" "n" "d")
               Hne H1 H2).
Defined.

End FeatureChange.

(* ================================================================== *)
(** ** The empty form and the list of missing features *)
(* ================================================================== *)

Module MissingFields.

Import Js JsFacts App Validation FormState FeatureChange.

Lemma fold_assign_shape (ks : list string) (acc : MushroomFeatures) :
  NoDup ks ->
  (forall k, In k ks -> ~ In k (keys acc)) ->
  fold_left (fun a key => assign a key "") ks acc
  = (acc ++ map (fun k => (k, "")) (filter not_proto ks))%list.
Proof.
  revert acc. induction ks as [| k ks IH]; simpl; intros acc Hnd Hfresh.
  - now rewrite app_nil_r.
  - inversion Hnd as [| ? ? Hnotin Hnd']; subst.
    assert (Hown : hasOwn acc k = false)
      by (apply hasOwn_false; apply Hfresh; now left).
    unfold assign at 2. rewrite Hown. unfold not_proto at 1.
    destruct (String.eqb_spec k "__proto__") as [-> | Hne]; simpl.
    + apply IH; [assumption |]. intros k' Hk'. apply Hfresh. now right.
    + rewrite IH; [now rewrite <- app_assoc | assumption |].
      intros k' Hk'. unfold keys. rewrite map_app, in_app_iff. simpl.
      intros [Hin | [<- | []]]; [| contradiction].
      apply (Hfresh k'); [now right | exact Hin].
Qed.

Lemma emptyRequiredEntries_all_empty (ks : list string) :
  emptyRequiredEntries (map (fun k => (k, "")) ks)
  = map (fun k => (k, "")) (filter (includes REQUIRED_FEATURES) ks).
Proof.
  unfold emptyRequiredEntries, entries.
  induction ks as [| k ks IH]; [reflexivity |]. cbn [map filter].
  change (negb (truthy "")) with true. rewrite andb_true_r.
  destruct (includes REQUIRED_FEATURES k); cbn [map]; now rewrite IH.
Qed.

Lemma emptyRequiredFields_all_empty (ks : list string) :
  emptyRequiredFields (map (fun k => (k, "")) ks)
  = map humanize (filter (includes REQUIRED_FEATURES) ks).
Proof.
  rewrite emptyRequiredFields_names, emptyRequiredEntries_all_empty.
  now rewrite keys_map_empty.
Qed.

Lemma filter_required_not_proto (ks : list string) :
  filter (includes REQUIRED_FEATURES) (filter not_proto ks)
  = filter (includes REQUIRED_FEATURES) ks.
Proof.
  induction ks as [| k ks IH]; [reflexivity |]. simpl.
  unfold not_proto at 1.
  destruct (String.eqb_spec k "__proto__") as [-> | Hne]; simpl.
  - exact IH.
  - now rewrite IH.
Qed.

(** X4.  The form starts with one entry per key of the feature table, in
    the order of the table, each holding the empty string; the one key
    that gets no entry is ["__proto__"], whose assignment on an object
    literal is not a property write. *)
Theorem initial_form_mirrors_table (fd : obj (obj string)) :
  NoDup (keys fd) ->
  keys (initialFeatures fd) = filter (fun k => negb (String.eqb k "__proto__")) (keys fd) /\
  (forall k, In k (keys fd) -> k <> "__proto__" ->
             View.select_value (initialState fd) k = Some "") /\
  (forall k, ~ In k (keys fd) -> View.select_value (initialState fd) k = None).
Proof.
  intros Hnd.
  assert (Hshape : initialFeatures fd
                   = map (fun k => (k, "")) (filter not_proto (keys fd))).
  { unfold initialFeatures. rewrite fold_assign_shape; auto. }
  unfold View.select_value. simpl features. rewrite Hshape.
  split; [apply keys_map_empty |]. split.
  - intros k Hk Hne. apply get_map_empty. apply filter_In.
    split; [assumption |]. unfold not_proto. apply negb_true_iff.
    now apply String.eqb_neq.
  - intros k Hk. apply get_None. rewrite keys_map_empty.
    intros Hin. apply filter_In in Hin. tauto.
Qed.

Lemma initial_form_mirrors_table_witness :
  NoDup (keys Sample.featureDescriptions) /\
  keys (initialFeatures Sample.featureDescriptions)
  = keys Sample.featureDescriptions /\
  View.select_value (initialState Sample.featureDescriptions) "veil-type"
  = Some "".
Proof.
  assert (Hnd : NoDup (keys Sample.featureDescriptions)).
  { unfold Sample.featureDescriptions, keys. simpl.
    repeat (constructor; [simpl; intuition discriminate |]). constructor. }
  destruct (initial_form_mirrors_table Sample.featureDescriptions Hnd)
    as [Hkeys [Hval _]].
  split; [exact Hnd |]. split; [exact Hkeys |].
  apply Hval; [apply hasOwn_In; reflexivity | discriminate].
Defined.

(** X5.  Submitting the form before anything is selected is refused as
    soon as the table has a required feature: no request is sent and the
    message names every required feature of the table, in the order of
    the table. *)
Theorem untouched_form_is_refused VITE env (fd : obj (obj string)) :
  NoDup (keys fd) ->
  (exists k, In k (keys fd) /\ In k REQUIRED_FEATURES) ->
  let st := initialState fd in
  error (final env (handleSubmit VITE (features st)) st)
  = Some (JString
            ("Please fill in all required fields: "
             ++ join ", " (map humanize
                             (filter (includes REQUIRED_FEATURES) (keys fd))))) /\
  result (final env (handleSubmit VITE (features st)) st) = None /\
  filter is_network (trace env (handleSubmit VITE (features st)) st) = [].
Proof.
  intros Hnd [k [Hk Hreq]]. cbv zeta.
  assert (Hshape : features (initialState fd)
                   = map (fun k => (k, "")) (filter not_proto (keys fd))).
  { simpl. unfold initialFeatures. rewrite fold_assign_shape; auto. }
  assert (Hmissing : emptyRequiredFields (features (initialState fd))
                     = map humanize (filter (includes REQUIRED_FEATURES) (keys fd))).
  { now rewrite Hshape, emptyRequiredFields_all_empty, filter_required_not_proto. }
  assert (Hin : In (humanize k)
                   (map humanize (filter (includes REQUIRED_FEATURES) (keys fd)))).
  { apply in_map. apply filter_In. split; [assumption |].
    now apply includes_In. }
  destruct (map humanize (filter (includes REQUIRED_FEATURES) (keys fd)))
    as [| f rest] eqn:E; [contradiction |].
  unfold final, trace.
  rewrite (run_handleSubmit_rejected VITE env (initialState fd) _ f rest Hmissing).
  repeat split; reflexivity.
Qed.

Lemma untouched_form_is_refused_witness :
  NoDup (keys Sample.featureDescriptions) /\
  (exists k, In k (keys Sample.featureDescriptions) /\ In k REQUIRED_FEATURES) /\
  error (final (Sample.server_up [])
           (handleSubmit None (features (initialState Sample.featureDescriptions)))
           (initialState Sample.featureDescriptions))
  = Some (JString "Please fill in all required fields: Cap Shape, Cap Surface, Cap Color, Bruises, Odor, Gill Spacing, Gill Color, Stalk Surface Above Ring, Ring Type, Spore Print Color, Population, Habitat").
Proof.
  assert (Hnd : NoDup (keys Sample.featureDescriptions)).
  { unfold Sample.featureDescriptions, keys. simpl.
    repeat (constructor; [simpl; intuition discriminate |]). constructor. }
  assert (Hreq : exists k, In k (keys Sample.featureDescriptions)
                           /\ In k REQUIRED_FEATURES).
  { exists "odor". split; apply includes_In; reflexivity. }
  split; [exact Hnd |]. split; [exact Hreq |].
  exact (proj1 (untouched_form_is_refused None (Sample.server_up [])
                  Sample.featureDescriptions Hnd Hreq)).
Defined.

Lemma emptyRequiredEntries_update_optional (fs : MushroomFeatures) (k v : string) :
  includes REQUIRED_FEATURES k = false ->
  emptyRequiredEntries (update fs k v) = emptyRequiredEntries fs.
Proof.
  intros Hopt. unfold emptyRequiredEntries, entries.
  induction fs as [| [k' v'] fs IH]; [reflexivity |]. cbn [update].
  destruct (String.eqb_spec k k') as [<- | Hne]; cbn [filter].
  - now rewrite Hopt.
  - now rewrite IH.
Qed.

(** X6.  A feature whose label carries [(Optional)] has no part in
    validation: whatever value is selected for it, also the empty one,
    the list of missing fields is the same as before. *)
Theorem optional_feature_never_blocks env st feature value :
  View.marker (View.feature_label feature) = "(Optional)" ->
  emptyRequiredFields
    (features (final env (handleFeatureChange feature value) st))
  = emptyRequiredFields (features st).
Proof.
  intros Hmarker.
  assert (Hopt : includes REQUIRED_FEATURES feature = false).
  { unfold View.feature_label in Hmarker. cbn [View.marker] in Hmarker.
    destruct (includes REQUIRED_FEATURES feature);
      [discriminate | reflexivity]. }
  rewrite features_after_change. unfold emptyRequiredFields. f_equal.
  unfold spread_set. destruct (hasOwn (features st) feature).
  - now apply emptyRequiredEntries_update_optional.
  - unfold emptyRequiredEntries, entries. rewrite filter_app. cbn [filter].
    rewrite Hopt. apply app_nil_r.
Qed.

Lemma optional_feature_never_blocks_witness :
  View.marker (View.feature_label "veil-type") = "(Optional)" /\
  emptyRequiredFields
    (features (final (Sample.server_up [])
                 (handleFeatureChange "veil-type" "")
                 (Sample.state_of Sample.filled)))
  = [].
Proof.
  split; [reflexivity |].
  exact (optional_feature_never_blocks (Sample.server_up [])
           (Sample.state_of Sample.filled) "veil-type" "" eq_refl).
Defined.

Lemma NoDup_keys_spread_set (fs : MushroomFeatures) (k v : string) :
  NoDup (keys fs) -> NoDup (keys (spread_set fs k v)).
Proof.
  intros Hnd. unfold spread_set. destruct (hasOwn fs k) eqn:Hown.
  - now rewrite keys_update.
  - apply hasOwn_false in Hown. unfold keys. rewrite map_app. simpl.
    apply NoDup_app; [assumption | repeat constructor; simpl; tauto |].
    intros k' Hk' [<- | []]. unfold keys in Hown. contradiction.
Qed.

(** X7.  Selecting a value for a required feature changes the list of
    missing features at that feature only: it is missing afterwards
    exactly when the selected value is the empty one, and every other
    feature is missing afterwards exactly when it was before. *)
Theorem required_selection_updates_missing env st feature value :
  NoDup (keys (features st)) ->
  In feature REQUIRED_FEATURES ->
  let st' := final env (handleFeatureChange feature value) st in
  forall k,
    In k (keys (emptyRequiredEntries (features st'))) <->
    (k = feature /\ value = "") \/
    (k <> feature /\ In k (keys (emptyRequiredEntries (features st)))).
Proof.
  intros Hnd Hreq. cbv zeta. intros k.
  rewrite features_after_change, !emptyRequiredKeys_In.
  pose proof (NoDup_keys_spread_set (features st) feature value Hnd) as Hnd'.
  assert (Hafter : In (k, "") (entries (spread_set (features st) feature value))
                   <-> get (spread_set (features st) feature value) k = Some "").
  { split; [now apply In_get | apply get_In]. }
  assert (Hbefore : In (k, "") (entries (features st))
                    <-> get (features st) k = Some "").
  { split; [now apply In_get | apply get_In]. }
  rewrite Hafter, Hbefore, get_spread_set.
  destruct (String.eqb_spec k feature) as [-> | Hne].
  - split.
    + intros [_ [= ->]]. now left.
    + intros [[_ ->] | [Hne _]]; [now split | contradiction].
  - split.
    + intros [Hk Hget]. right. now repeat split.
    + intros [[Hk _] | [_ [Hk Hget]]]; [contradiction | now split].
Qed.

Lemma required_selection_updates_missing_witness :
  NoDup (keys (features (Sample.state_of Sample.partly_filled))) /\
  In "odor" REQUIRED_FEATURES /\
  keys (emptyRequiredEntries
          (features (final (Sample.server_up []) (handleFeatureChange "odor" "f")
                       (Sample.state_of Sample.partly_filled))))
  = ["spore-print-color"] /\
  (In "odor" (keys (emptyRequiredEntries
          (features (final (Sample.server_up []) (handleFeatureChange "odor" "f")
                       (Sample.state_of Sample.partly_filled))))) <->
   ("odor" = "odor" /\ "f" = "") \/
   ("odor" <> "odor" /\
    In "odor" (keys (emptyRequiredEntries
                       (features (Sample.state_of Sample.partly_filled)))))).
Proof.
  assert (Hnd : NoDup (keys (features (Sample.state_of Sample.partly_filled)))).
  { simpl. repeat (constructor; [simpl; intuition discriminate |]). constructor. }
  assert (Hreq : In "odor" REQUIRED_FEATURES)
    by (apply includes_In; reflexivity).
  split; [exact Hnd |]. split; [exact Hreq |]. split; [reflexivity |].
  exact (required_selection_updates_missing (Sample.server_up [])
           (Sample.state_of Sample.partly_filled) "odor" "f" Hnd Hreq "odor").
Defined.

End MissingFields.

(* ================================================================== *)
(** ** What the handlers keep and what they leave *)
(* ================================================================== *)

Module Handlers.

Import Js JsFacts App Validation Upload View.

Ltac split_all := repeat match goal with |- _ /\ _ => split end.

Ltac settle :=
  first [ reflexivity
        | lia
        | now left
        | right; eexists; reflexivity
        | solve [repeat constructor] ].

(** The run of an upload whose analysis fails, by the place of the
    failure: [fetch] rejects; the response is not [ok]; [json()]
    rejects; the body is [null]. *)
Lemma run_upload_fetch_rejects VITE env st fs file files err :
  reply_fetch env (API_URL VITE ++ "/analyze-image")
              {| method := "POST"; body := [("image", file)] |} = inl err ->
  run env (handleImageUpload VITE fs (Some (file :: files))) st =
    (inr tt,
     {| result := result st; loading := false;
        error := Some (JString "Failed to analyze image. Please try again.");
        imagePreview := Some (object_url env file); features := features st |},
     [ Ev (createObjectURL file); Ev (setImagePreview (object_url env file));
       Ev (setLoading true);
       Ev (fetch (API_URL VITE ++ "/analyze-image")
                 {| method := "POST"; body := [("image", file)] |});
       Ev (console_error "Error analyzing image:" err);
       Ev (setError (Some (JString "Failed to analyze image. Please try again.")));
       Ev (setLoading false) ]).
Proof.
  intros Hfetch. unfold handleImageUpload. simpl. rewrite Hfetch. reflexivity.
Qed.

Lemma run_upload_not_ok VITE env st fs file files response :
  reply_fetch env (API_URL VITE ++ "/analyze-image")
              {| method := "POST"; body := [("image", file)] |} = inr response ->
  ok response = false ->
  run env (handleImageUpload VITE fs (Some (file :: files))) st =
    (inr tt,
     {| result := result st; loading := false;
        error := Some (JString "Failed to analyze image. Please try again.");
        imagePreview := Some (object_url env file); features := features st |},
     [ Ev (createObjectURL file); Ev (setImagePreview (object_url env file));
       Ev (setLoading true);
       Ev (fetch (API_URL VITE ++ "/analyze-image")
                 {| method := "POST"; body := [("image", file)] |});
       Ev (console_error "Error analyzing image:"
             (Error_ "Failed to analyze image"));
       Ev (setError (Some (JString "Failed to analyze image. Please try again.")));
       Ev (setLoading false) ]).
Proof.
  intros Hfetch Hok. unfold handleImageUpload. simpl.
  rewrite Hfetch. simpl. rewrite Hok. reflexivity.
Qed.

Lemma run_upload_json_rejects VITE env st fs file files response err :
  reply_fetch env (API_URL VITE ++ "/analyze-image")
              {| method := "POST"; body := [("image", file)] |} = inr response ->
  ok response = true ->
  json response = inl err ->
  run env (handleImageUpload VITE fs (Some (file :: files))) st =
    (inr tt,
     {| result := result st; loading := false;
        error := Some (JString "Failed to analyze image. Please try again.");
        imagePreview := Some (object_url env file); features := features st |},
     [ Ev (createObjectURL file); Ev (setImagePreview (object_url env file));
       Ev (setLoading true);
       Ev (fetch (API_URL VITE ++ "/analyze-image")
                 {| method := "POST"; body := [("image", file)] |});
       Ev (console_error "Error analyzing image:" err);
       Ev (setError (Some (JString "Failed to analyze image. Please try again.")));
       Ev (setLoading false) ]).
Proof.
  intros Hfetch Hok Hjson. unfold handleImageUpload. simpl.
  rewrite Hfetch. simpl. rewrite Hok. simpl. rewrite Hjson. reflexivity.
Qed.

Lemma run_upload_null_body VITE env st fs file files response :
  reply_fetch env (API_URL VITE ++ "/analyze-image")
              {| method := "POST"; body := [("image", file)] |} = inr response ->
  ok response = true ->
  json response = inr data_null ->
  run env (handleImageUpload VITE fs (Some (file :: files))) st =
    (inr tt,
     {| result := result st; loading := false;
        error := Some (JString "Failed to analyze image. Please try again.");
        imagePreview := Some (object_url env file); features := features st |},
     [ Ev (createObjectURL file); Ev (setImagePreview (object_url env file));
       Ev (setLoading true);
       Ev (fetch (API_URL VITE ++ "/analyze-image")
                 {| method := "POST"; body := [("image", file)] |});
       Ev (console_log "Image analysis results:" data_null);
       Ev (console_error "Error analyzing image:"
             (Error_ "Cannot read properties of null (reading 'features')"));
       Ev (setError (Some (JString "Failed to analyze image. Please try again.")));
       Ev (setLoading false) ]).
Proof.
  intros Hfetch Hok Hjson. unfold handleImageUpload. simpl.
  rewrite Hfetch. simpl. rewrite Hok. simpl. rewrite Hjson. reflexivity.
Qed.

(** The five ways an upload with a file can go. *)
Lemma upload_cases VITE env file :
  let reply := reply_fetch env (API_URL VITE ++ "/analyze-image")
                 {| method := "POST"; body := [("image", file)] |} in
  (exists err, reply = inl err) \/
  (exists response, reply = inr response /\ ok response = false) \/
  (exists response err, reply = inr response /\ ok response = true
                        /\ json response = inl err) \/
  (exists response, reply = inr response /\ ok response = true
                    /\ json response = inr data_null) \/
  (exists response d, reply = inr response /\ ok response = true
                      /\ json response = inr (data_object d)).
Proof.
  cbv zeta.
  destruct (reply_fetch env (API_URL VITE ++ "/analyze-image")
              {| method := "POST"; body := [("image", file)] |})
    as [err | response]; [left; eauto |].
  destruct (ok response) eqn:Hok; [| right; left; eauto].
  destruct (json response) as [err | [| d]] eqn:Hjson.
  - right; right; left. eauto.
  - right; right; right; left. eauto.
  - right; right; right; right. eauto.
Qed.


(** X8.  When the analysis of an uploaded image fails ([fetch] rejects,
    the response is not [ok] (its body is then not read), [json()]
    rejects, or the body is [null]), the handler does not throw: it logs
    the error, shows the fixed message, resets loading, keeps the
    preview of the chosen file, and leaves the features and the result
    as they were.  One request was sent. *)
Theorem failed_analysis_reports_and_recovers VITE env st fs file files err :
  let reply := reply_fetch env (API_URL VITE ++ "/analyze-image")
                 {| method := "POST"; body := [("image", file)] |} in
  (reply = inl err \/
   (exists response, reply = inr response /\ ok response = false
                     /\ err = Error_ "Failed to analyze image") \/
   (exists response, reply = inr response /\ ok response = true
                     /\ json response = inl err) \/
   (exists response, reply = inr response /\ ok response = true
                     /\ json response = inr data_null
                     /\ err = Error_ "Cannot read properties of null (reading 'features')")) ->
  let p := handleImageUpload VITE fs (Some (file :: files)) in
  outcome env p st = inr tt /\
  final env p st =
    {| result := result st; loading := false;
       error := Some (JString "Failed to analyze image. Please try again.");
       imagePreview := Some (object_url env file); features := features st |} /\
  filter is_network (trace env p st)
  = [Ev (fetch (API_URL VITE ++ "/analyze-image")
               {| method := "POST"; body := [("image", file)] |})] /\
  logged_errors (trace env p st) = [err].
Proof.
  cbv zeta. unfold outcome, final, trace.
  intros [Hfetch | [[response [Hfetch [Hok ->]]]
                   | [[response [Hfetch [Hok Hjson]]]
                     | [response [Hfetch [Hok [Hjson ->]]]]]]].
  - rewrite (run_upload_fetch_rejects VITE env st fs file files err Hfetch).
    repeat split; reflexivity.
  - rewrite (run_upload_not_ok VITE env st fs file files response Hfetch Hok).
    repeat split; reflexivity.
  - rewrite (run_upload_json_rejects VITE env st fs file files response err
               Hfetch Hok Hjson).
    repeat split; reflexivity.
  - rewrite (run_upload_null_body VITE env st fs file files response
               Hfetch Hok Hjson).
    repeat split; reflexivity.
Qed.

Lemma failed_analysis_reports_and_recovers_witness :
  (exists response,
     reply_fetch
       {| reply_post := fun _ _ => inl Sample.network_error;
          reply_fetch := fun _ _ =>
            inr {| ok := false;
                   json := inr (data_object (Some [("odor", "n")])) |};
          object_url := fun f => "blob:" ++ file_name f |}
       (API_URL None ++ "/analyze-image")
       {| method := "POST"; body := [("image", Sample.photo)] |} = inr response
     /\ ok response = false
     /\ Error_ "Failed to analyze image" = Error_ "Failed to analyze image") /\
  final
    {| reply_post := fun _ _ => inl Sample.network_error;
       reply_fetch := fun _ _ =>
         inr {| ok := false;
                json := inr (data_object (Some [("odor", "n")])) |};
       object_url := fun f => "blob:" ++ file_name f |}
    (handleImageUpload None Sample.filled (Some [Sample.photo]))
    Sample.settled
  = {| result := Some Sample.verdict; loading := false;
       error := Some (JString "Failed to analyze image. Please try again.");
       imagePreview := Some "blob:amanita.jpg"; features := Sample.filled |}.
Proof.
  set (env := {| reply_post := fun _ _ => inl Sample.network_error;
                 reply_fetch := fun _ _ =>
                   inr {| ok := false;
                          json := inr (data_object (Some [("odor", "n")])) |};
                 object_url := fun f => "blob:" ++ file_name f |}).
  assert (H : exists response,
             reply_fetch env (API_URL None ++ "/analyze-image")
               {| method := "POST"; body := [("image", Sample.photo)] |}
             = inr response
             /\ ok response = false
             /\ Error_ "Failed to analyze image" = Error_ "Failed to analyze image").
  { eexists. repeat split; reflexivity. }
  split; [exact H |].
  exact (proj1 (proj2
    (failed_analysis_reports_and_recovers None env Sample.settled Sample.filled
       Sample.photo [] (Error_ "Failed to analyze image")
       (or_intror (or_introl H))))).
Defined.

(** X9.  Whatever the server does, an upload with a file does not throw,
    ends with loading reset and with the preview of the chosen file,
    sends exactly one request, the one to [/analyze-image], and never
    touches the stored result.  The features at the end are the form
    merged with the features of the reply when the reply is [ok] and its
    body is an object with a truthy [features] field; in every other
    case they are the features the state had. *)
Theorem upload_always_settles VITE env st file files :
  let p := handleImageUpload VITE (features st) (Some (file :: files)) in
  outcome env p st = inr tt /\
  loading (final env p st) = false /\
  imagePreview (final env p st) = Some (object_url env file) /\
  filter is_network (trace env p st)
  = [Ev (fetch (API_URL VITE ++ "/analyze-image")
               {| method := "POST"; body := [("image", file)] |})] /\
  Forall (fun s => result s = result st) (states_along (trace env p st) st) /\
  result (final env p st) = result st /\
  features (final env p st)
  = match reply_fetch env (API_URL VITE ++ "/analyze-image")
            {| method := "POST"; body := [("image", file)] |} with
    | inr response =>
        if ok response then
          match json response with
          | inr (data_object (Some detected)) =>
              mergeDetected (features st) detected
          | _ => features st
          end
        else features st
    | inl _ => features st
    end.
Proof.
  cbv zeta. unfold outcome, final, trace.
  destruct (upload_cases VITE env file)
    as [[err Hfetch]
       | [[response [Hfetch Hok]]
         | [[response [err [Hfetch [Hok Hjson]]]]
           | [[response [Hfetch [Hok Hjson]]]
             | [response [d [Hfetch [Hok Hjson]]]]]]]].
  - rewrite (run_upload_fetch_rejects VITE env st _ file files err Hfetch).
    rewrite Hfetch. simpl. split_all; settle.
  - rewrite (run_upload_not_ok VITE env st _ file files response Hfetch Hok).
    rewrite Hfetch, Hok. simpl. split_all; settle.
  - rewrite (run_upload_json_rejects VITE env st _ file files response err
               Hfetch Hok Hjson).
    rewrite Hfetch, Hok, Hjson. simpl. split_all; settle.
  - rewrite (run_upload_null_body VITE env st _ file files response
               Hfetch Hok Hjson).
    rewrite Hfetch, Hok, Hjson. simpl. split_all; settle.
  - rewrite (run_handleImageUpload_success VITE env st _ file files response d
               Hfetch Hok Hjson).
    rewrite Hfetch, Hok, Hjson.
    destruct d as [detected |]; simpl; split_all; settle.
Qed.

(** X10.  Whatever the server does, a submission does not throw, ends
    with loading reset, sends at most one request, and never touches the
    features or the image preview.  It ends without an error message
    exactly when validation passed and the endpoint answered. *)
Theorem submit_always_settles VITE env st :
  let p := handleSubmit VITE (features st) in
  outcome env p st = inr tt /\
  loading (final env p st) = false /\
  (length (filter is_network (trace env p st)) <= 1)%nat /\
  Forall (fun s => features s = features st /\ imagePreview s = imagePreview st)
         (states_along (trace env p st) st) /\
  features (final env p st) = features st /\
  imagePreview (final env p st) = imagePreview st /\
  (error (final env p st) = None <->
   emptyRequiredFields (features st) = [] /\
   exists response,
     reply_post env (API_URL VITE ++ "/predict") (features st) = inr response).
Proof.
  cbv zeta. unfold outcome, final, trace.
  destruct (emptyRequiredFields (features st)) as [| f rest] eqn:E.
  - rewrite (run_handleSubmit_accepted VITE env st _ E).
    destruct (reply_post env (API_URL VITE ++ "/predict") (features st))
      as [err | response]; simpl; split_all; try settle.
    + split; [discriminate | intros [_ [response Hr]]; discriminate].
    + split; [intros _; split; [reflexivity | now exists response]
             | reflexivity].
  - rewrite (run_handleSubmit_rejected VITE env st _ f rest E). simpl.
    split_all; try settle.
    split; [discriminate | intros [Hnil _]; discriminate].
Qed.





End Handlers.

(* ================================================================== *)
(** ** The loop over the detected features, in closed form *)
(* ================================================================== *)

Module Merge.

Import Js JsFacts App Upload.

Lemma overwritten_absent_key (fs d : obj string) (k v : string) :
  ~ In k (keys fs) -> overwritten fs ((k, v) :: d) = overwritten fs d.
Proof.
  intros Hk. unfold overwritten. apply map_ext_in. intros [k0 v0] Hin.
  cbn [fst snd get].
  destruct (String.eqb_spec k0 k) as [-> | Hne]; [| reflexivity].
  exfalso. apply Hk. unfold keys. change k with (fst (k, v0)).
  now apply in_map.
Qed.

Lemma overwritten_update (fs d : obj string) (k v : string) :
  NoDup (keys fs) -> ~ In k (keys d) ->
  overwritten (update fs k v) d = overwritten fs ((k, v) :: d).
Proof.
  intros Hnd Hk. induction fs as [| [k0 v0] fs IH]; [reflexivity |].
  unfold keys in Hnd. cbn [map fst] in Hnd.
  inversion Hnd as [| ? ? Hnotin Hnd']; subst.
  cbn [update]. destruct (String.eqb_spec k k0) as [<- | Hne].
  - unfold overwritten at 1 2. cbn [map fst snd get].
    rewrite String.eqb_refl.
    apply get_None in Hk. rewrite Hk. f_equal.
    symmetry. now apply overwritten_absent_key.
  - unfold overwritten at 1 2. cbn [map fst snd get].
    destruct (String.eqb_spec k0 k); [congruence |]. f_equal.
    now apply IH.
Qed.

Lemma inherited_entries_same_keys (fs fs' d : obj string) :
  (forall k, In k (keys d) -> hasOwn fs' k = hasOwn fs k) ->
  inherited_entries fs' d = inherited_entries fs d.
Proof.
  intros Hsame. unfold inherited_entries. apply filter_ext_in.
  intros [k v] Hin. cbn [fst]. rewrite Hsame; [reflexivity |].
  unfold keys. change k with (fst (k, v)). now apply in_map.
Qed.

Lemma hasOwn_app_other (fs : obj string) (k k' v : string) :
  k' <> k -> hasOwn (fs ++ [(k, v)])%list k' = hasOwn fs k'.
Proof.
  intros Hne. unfold hasOwn, keys. rewrite map_app, existsb_app. simpl.
  destruct (String.eqb_spec k' k); [contradiction |].
  now rewrite orb_false_r.
Qed.

(** The loop, for a form and a detected object without repeated keys:
    the values of the form are overwritten, and the detected entries
    whose key the form lacks but [Object.prototype] has are added. *)
Lemma mergeDetected_shape (fs d : obj string) :
  NoDup (keys fs) -> NoDup (keys d) ->
  mergeDetected fs d = (overwritten fs d ++ inherited_entries fs d)%list.
Proof.
  unfold mergeDetected, entries. revert fs.
  induction d as [| [k v] d IH]; intros fs Hfs Hd.
  - cbn. unfold overwritten. rewrite app_nil_r.
    rewrite <- (map_id fs) at 1. apply map_ext. now intros [k v].
  - unfold keys in Hd. cbn [map fst] in Hd.
    inversion Hd as [| ? ? Hk Hd']; subst. fold (keys d) in Hk, Hd'.
    cbn [fold_left].
    destruct (hasOwn fs k) eqn:Hown.
    + (* the form has the key *)
      assert (Hin : In k (keys fs)) by now apply hasOwn_In.
      rewrite (merge_step_own fs k v Hin).
      rewrite IH by (try assumption; now rewrite keys_update).
      rewrite (overwritten_update fs d k v Hfs Hk). f_equal.
      unfold inherited_entries at 2. cbn [filter fst]. rewrite Hown.
      cbn [negb andb]. apply inherited_entries_same_keys.
      intros k' _. unfold hasOwn. now rewrite keys_update.
    + assert (Hnotin : ~ In k (keys fs)) by now apply hasOwn_false.
      rewrite (overwritten_absent_key fs d k v Hnotin).
      unfold inherited_entries at 1. cbn [filter fst]. rewrite Hown.
      cbn [negb andb]. fold (inherited_entries fs d).
      unfold has_property, assign. rewrite Hown. cbn [orb].
      destruct (includes Object_prototype_names k) eqn:Hproto;
        cbn [negb andb]; [| now apply IH].
      destruct (String.eqb k "__proto__") eqn:Hp; cbn [negb andb];
        [now apply IH |].
      (* an inherited name: the entry is added *)
      assert (Hget : get d k = None) by now apply get_None.
      rewrite IH.
      * unfold overwritten at 1. rewrite map_app. cbn [map fst snd].
        rewrite Hget. fold (overwritten fs d).
        rewrite <- app_assoc. cbn [app]. do 2 f_equal.
        apply inherited_entries_same_keys. intros k' Hk'.
        apply hasOwn_app_other. intros ->. contradiction.
      * unfold keys. rewrite map_app. cbn [map fst].
        apply NoDup_app; [assumption | repeat constructor; simpl; tauto |].
        intros k' Hk' [<- | []]. contradiction.
      * assumption.
Qed.

Lemma keys_overwritten (fs d : obj string) : keys (overwritten fs d) = keys fs.
Proof.
  unfold keys, overwritten. rewrite map_map. apply map_ext. now intros [k v].
Qed.

Lemma overwritten_twice (fs d : obj string) :
  overwritten (overwritten fs d) d = overwritten fs d.
Proof.
  unfold overwritten. rewrite map_map. apply map_ext. intros [k v].
  cbn [fst snd]. now destruct (get d k).
Qed.

Lemma overwritten_detected_entries (es d : obj string) :
  NoDup (keys d) -> (forall kv, In kv es -> In kv d) ->
  overwritten es d = es.
Proof.
  intros Hd Hsub. unfold overwritten.
  rewrite <- (map_id es) at 2. apply map_ext_in. intros [k v] Hin.
  cbn [fst snd]. now rewrite (In_get d k v Hd (Hsub _ Hin)).
Qed.

(** X13.  What the loop of [handleImageUpload] leaves, for a form and a
    detected object that are proper objects (no key twice), when every
    detected value is a string, as the cast of the loop takes them to
    be.  Every feature of the form keeps its place and takes the
    detected value when there is one; nothing is removed; the only
    entries added, at the end and in the order detected, are the
    detected keys that the form lacks and that name a property of
    [Object.prototype] other than [__proto__]. *)
Theorem mergeDetected_closed_form (fs detected : obj string) :
  NoDup (keys fs) -> NoDup (keys detected) ->
  mergeDetected fs detected
  = (overwritten fs detected ++ inherited_entries fs detected)%list /\
  (forall k, In k (keys fs) ->
     get (mergeDetected fs detected) k
     = match get detected k with
       | Some v => Some v
       | None => get fs k
       end) /\
  (forall k, In k (keys (mergeDetected fs detected)) ->
     In k (keys fs) \/
     (In k (keys detected) /\ In k Object_prototype_names /\ k <> "__proto__")).
Proof.
  intros Hfs Hd. pose proof (mergeDetected_shape fs detected Hfs Hd) as Hshape.
  split; [exact Hshape |]. split.
  - intros k Hk. rewrite Hshape.
    assert (Hget : get (overwritten fs detected) k
                   = match get detected k with
                     | Some v => Some v
                     | None => get fs k
                     end).
    { clear Hshape Hfs. unfold keys in Hk.
      induction fs as [| [k0 v0] fs IH]; [contradiction |].
      unfold overwritten. cbn [map fst snd get]. fold (overwritten fs detected).
      destruct (String.eqb_spec k k0) as [-> | Hne].
      - now destruct (get detected k0).
      - apply IH. destruct Hk as [Hk | Hk]; [simpl in Hk; congruence | exact Hk]. }
    assert (Hown : exists w, get (overwritten fs detected) k = Some w).
    { destruct (get (overwritten fs detected) k) as [w |] eqn:E; [eauto |].
      apply get_None in E. rewrite keys_overwritten in E. contradiction. }
    destruct Hown as [w Hw].
    assert (Happ : forall a b : obj string,
               get a k = Some w -> get (a ++ b)%list k = Some w).
    { intros a b. induction a as [| [k1 v1] a IHa]; [discriminate |].
      cbn [get app]. destruct (String.eqb k k1); auto. }
    rewrite (Happ _ _ Hw). now rewrite <- Hget.
  - intros k. rewrite Hshape. unfold keys at 1.
    rewrite map_app, in_app_iff. fold (keys (overwritten fs detected)).
    rewrite keys_overwritten. intros [Hk | Hk]; [now left |]. right.
    apply in_map_iff in Hk. destruct Hk as [[k' v] [Hfst Hin]].
    cbn in Hfst. subst k'. unfold inherited_entries in Hin.
    apply filter_In in Hin. destruct Hin as [Hin Hcond]. cbn [fst] in Hcond.
    apply andb_true_iff in Hcond. destruct Hcond as [Hcond Hp].
    apply andb_true_iff in Hcond. destruct Hcond as [_ Hproto].
    split; [| split].
    + unfold keys. change k with (fst (k, v)). now apply in_map.
    + now apply includes_In.
    + apply negb_true_iff in Hp. now apply String.eqb_neq.
Qed.

Lemma mergeDetected_closed_form_witness :
  NoDup (keys Sample.filled) /\
  NoDup (keys [("odor", "n"); ("toString", "x"); ("color", "red")]) /\
  mergeDetected Sample.filled
    [("odor", "n"); ("toString", "x"); ("color", "red")]
  = (update Sample.filled "odor" "n" ++ [("toString", "x")])%list.
Proof.
  assert (Hfs : NoDup (keys Sample.filled)).
  { unfold Sample.filled, keys. simpl.
    repeat (constructor; [simpl; intuition discriminate |]). constructor. }
  assert (Hd : NoDup (keys [("odor", "n"); ("toString", "x"); ("color", "red")])).
  { simpl. repeat (constructor; [simpl; intuition discriminate |]). constructor. }
  split; [exact Hfs |]. split; [exact Hd |].
  exact (proj1 (mergeDetected_closed_form Sample.filled
                  [("odor", "n"); ("toString", "x"); ("color", "red")] Hfs Hd)).
Defined.

(** X14.  Merging the same detection a second time changes nothing: an
    upload repeated with the same answer leaves the form it gave the
    first time. *)
Theorem mergeDetected_idempotent (fs detected : obj string) :
  NoDup (keys fs) -> NoDup (keys detected) ->
  mergeDetected (mergeDetected fs detected) detected
  = mergeDetected fs detected.
Proof.
  intros Hfs Hd.
  rewrite (mergeDetected_shape fs detected Hfs Hd).
  set (inh := inherited_entries fs detected).
  assert (Hinh : forall kv, In kv inh -> In kv detected).
  { intros kv Hin. unfold inh, inherited_entries in Hin.
    now apply filter_In in Hin. }
  assert (Hfresh : forall k, In k (keys inh) -> ~ In k (keys fs)).
  { intros k Hk. apply in_map_iff in Hk. destruct Hk as [[k' v] [Hfst Hin]].
    cbn in Hfst. subst k'. unfold inh, inherited_entries in Hin.
    apply filter_In in Hin. destruct Hin as [_ Hcond]. cbn [fst] in Hcond.
    apply andb_true_iff in Hcond. destruct Hcond as [Hcond _].
    apply andb_true_iff in Hcond. destruct Hcond as [Hown _].
    apply negb_true_iff in Hown. now apply hasOwn_false. }
  assert (Hnd : NoDup (keys (overwritten fs detected ++ inh)%list)).
  { unfold keys. rewrite map_app. fold (keys (overwritten fs detected)).
    fold (keys inh). rewrite keys_overwritten.
    apply NoDup_app; [assumption | | ].
    - unfold inh, inherited_entries. now apply Validation.keys_filter_NoDup.
    - intros k Hk Hk'. exact (Hfresh k Hk' Hk). }
  rewrite (mergeDetected_shape _ detected Hnd Hd).
  assert (Hnone : inherited_entries (overwritten fs detected ++ inh)%list detected
                  = []).
  { unfold inherited_entries at 1.
    rewrite <- (filter_ext_in (fun _ => false)).
    - clear. induction detected; [reflexivity | assumption].
    - intros [k v] Hin. cbn [fst]. symmetry.
      destruct (hasOwn (overwritten fs detected ++ inh)%list k) eqn:Hown;
        [reflexivity |].
      cbn [negb andb].
      destruct (includes Object_prototype_names k) eqn:Hproto;
        [| reflexivity].
      destruct (String.eqb k "__proto__") eqn:Hp; [reflexivity |].
      exfalso. apply hasOwn_false in Hown. apply Hown.
      unfold keys. rewrite map_app, in_app_iff.
      fold (keys (overwritten fs detected)). rewrite keys_overwritten.
      destruct (hasOwn fs k) eqn:Hfsk; [left; now apply hasOwn_In |].
      right. change k with (fst (k, v)). apply in_map.
      unfold inh, inherited_entries. apply filter_In. split; [assumption |].
      cbn [fst]. now rewrite Hfsk, Hproto, Hp. }
  rewrite Hnone, app_nil_r.
  unfold overwritten at 1. rewrite map_app.
  fold (overwritten (overwritten fs detected) detected).
  fold (overwritten inh detected).
  now rewrite overwritten_twice, (overwritten_detected_entries inh detected Hd Hinh).
Qed.

Lemma mergeDetected_idempotent_witness :
  NoDup (keys Sample.filled) /\
  NoDup (keys [("odor", "n"); ("toString", "x")]) /\
  mergeDetected
    (mergeDetected Sample.filled [("odor", "n"); ("toString", "x")])
    [("odor", "n"); ("toString", "x")]
  = mergeDetected Sample.filled [("odor", "n"); ("toString", "x")].
Proof.
  assert (Hfs : NoDup (keys Sample.filled)).
  { unfold Sample.filled, keys. simpl.
    repeat (constructor; [simpl; intuition discriminate |]). constructor. }
  assert (Hd : NoDup (keys [("odor", "n"); ("toString", "x")])).
  { simpl. repeat (constructor; [simpl; intuition discriminate |]). constructor. }
  split; [exact Hfs |]. split; [exact Hd |].
  exact (mergeDetected_idempotent Sample.filled
           [("odor", "n"); ("toString", "x")] Hfs Hd).
Defined.

End Merge.

(* ================================================================== *)
(** ** Labels *)
(* ================================================================== *)

Module Labels.

Import Js App Names.

Lemma capitalize_cons (c : ascii) (w : string) :
  capitalize (String c w) = String (upper_ascii c) w.
Proof. reflexivity. Qed.

Lemma join_space_empty_head (ws : list string) :
  ws <> [] -> join " " (EmptyString :: ws) = String " " (join " " ws).
Proof. destruct ws; [contradiction | reflexivity]. Qed.

(** [split], [map] and [join] amount to one pass over the name, whether
    or not the first word is capitalized. *)
Lemma humanize_one_pass (s : string) :
  join " " (map capitalize (split "-" s)) = title_pass true s /\
  match split "-" s with
  | w :: ws => join " " (w :: map capitalize ws) = title_pass false s
  | [] => True
  end.
Proof.
  induction s as [| c s [IH1 IH2]]; [split; reflexivity |].
  cbn [split title_pass].
  pose proof (split_nonempty "-" s) as Hne.
  destruct (Ascii.eqb c "-").
  - cbn [map]. change (capitalize "") with EmptyString.
    assert (Hmap : map capitalize (split "-" s) <> [])
      by (destruct (split "-" s); [contradiction | discriminate]).
    rewrite (join_space_empty_head _ Hmap), IH1. split; reflexivity.
  - destruct (split "-" s) as [| w ws]; [contradiction |].
    cbn [map]. rewrite capitalize_cons, !join_cons_char, IH2.
    split; reflexivity.
Qed.

Lemma upper_ascii_not_hyphen (c : ascii) :
  c <> "-"%char -> upper_ascii c <> "-"%char.
Proof.
  intros Hc.
  destruct c as [[] [] [] [] [] [] [] []]; vm_compute;
    solve [discriminate | intros _; apply Hc; reflexivity].
Qed.

Lemma length_title_pass (b : bool) (s : string) :
  String.length (title_pass b s) = String.length s.
Proof.
  revert b. induction s as [| c s IH]; intros b; [reflexivity |].
  cbn [title_pass]. destruct (Ascii.eqb c "-"); cbn [String.length];
    now rewrite IH.
Qed.

Lemma title_pass_no_hyphen (b : bool) (s : string) (i : nat) :
  String.get i (title_pass b s) <> Some "-"%char.
Proof.
  revert b i. induction s as [| c s IH]; intros b i; [now destruct i |].
  cbn [title_pass]. destruct (Ascii.eqb_spec c "-") as [-> | Hne].
  - destruct i; cbn [String.get]; [discriminate | apply IH].
  - destruct i; cbn [String.get]; [| apply IH].
    intros [= H]. destruct b; [now apply (upper_ascii_not_hyphen c) | exact (Hne H)].
Qed.

Lemma title_pass_spaces (b : bool) (s : string) (i : nat) :
  String.get i s = Some "-"%char -> String.get i (title_pass b s) = Some " "%char.
Proof.
  revert b i. induction s as [| c s IH]; intros b i; [now destruct i |].
  cbn [title_pass]. destruct (Ascii.eqb_spec c "-") as [-> | Hne].
  - destruct i; cbn [String.get]; [reflexivity | apply IH].
  - destruct i; cbn [String.get]; [intros [= H]; contradiction | apply IH].
Qed.

(** X15.  For a feature name of ASCII characters, the text shown for the
    feature, in its label and in the message of missing fields, has the
    length of the name, has a space wherever the name has a hyphen, and
    contains no hyphen. *)
Theorem humanize_keeps_length_drops_hyphens (key : string) :
  ascii_text key = true ->
  String.length (humanize key) = String.length key /\
  (forall i, String.get i key = Some "-"%char ->
             String.get i (humanize key) = Some " "%char) /\
  (forall i, String.get i (humanize key) <> Some "-"%char) /\
  View.label_text (View.feature_label key) = humanize key.
Proof.
  intros _.
  assert (H : humanize key = title_pass true key)
    by (unfold humanize; apply humanize_one_pass).
  rewrite H. split; [apply length_title_pass |].
  split; [intros i; apply title_pass_spaces |].
  split; [intros i; apply title_pass_no_hyphen |].
  unfold View.feature_label. cbn [View.label_text]. exact H.
Qed.

Lemma humanize_keeps_length_drops_hyphens_witness :
  ascii_text "stalk-surface-above-ring" = true /\
  String.length (humanize "stalk-surface-above-ring") = 24%nat /\
  String.get 5 (humanize "stalk-surface-above-ring") = Some " "%char.
Proof.
  destruct (humanize_keeps_length_drops_hyphens "stalk-surface-above-ring"
              eq_refl) as [Hlen [Hspace _]].
  split; [reflexivity |]. split; [exact Hlen |].
  apply Hspace. reflexivity.
Defined.

End Labels.

(* ================================================================== *)
(** ** An upload followed by a submission *)
(* ================================================================== *)

Module Scenario.

Import Js JsFacts App Validation Upload.

(** X16.  After an upload whose analysis succeeds with detected
    features, a submission validates the merged form and, when no
    required feature of it is empty, posts exactly that merged form,
    with every entry the loop has put in it. *)
Theorem upload_then_submit VITE env st file files response detected :
  reply_fetch env (API_URL VITE ++ "/analyze-image")
              {| method := "POST"; body := [("image", file)] |} = inr response ->
  ok response = true ->
  json response = inr (data_object (Some detected)) ->
  (forall k, In k REQUIRED_FEATURES ->
             ~ In (k, "") (entries (mergeDetected (features st) detected))) ->
  let st1 := final env (handleImageUpload VITE (features st)
                          (Some (file :: files))) st in
  features st1 = mergeDetected (features st) detected /\
  filter is_network (trace env (handleSubmit VITE (features st1)) st1)
  = [Ev (axios_post (API_URL VITE ++ "/predict")
                    (mergeDetected (features st) detected))].
Proof.
  intros Hfetch Hok Hjson Hfilled. cbv zeta.
  assert (Hst1 : features (final env (handleImageUpload VITE (features st)
                                        (Some (file :: files))) st)
                 = mergeDetected (features st) detected).
  { unfold final.
    now rewrite (run_handleImageUpload_success VITE env st (features st)
                   file files response _ Hfetch Hok Hjson). }
  split; [exact Hst1 |].
  rewrite Hst1. apply validation_passes_iff in Hfilled. unfold trace.
  rewrite (run_handleSubmit_accepted VITE env _ _ Hfilled).
  destruct (reply_post env (API_URL VITE ++ "/predict")
              (mergeDetected (features st) detected)); reflexivity.
Qed.

Lemma upload_then_submit_witness :
  reply_fetch (Sample.server_up [("odor", "f"); ("spore-print-color", "k")])
              (API_URL None ++ "/analyze-image")
              {| method := "POST"; body := [("image", Sample.photo)] |}
  = inr {| ok := true;
           json := inr (data_object
                          (Some [("odor", "f"); ("spore-print-color", "k")])) |} /\
  (forall k, In k REQUIRED_FEATURES ->
             ~ In (k, "")
                  (entries (mergeDetected
                              (features (Sample.state_of Sample.partly_filled))
                              [("odor", "f"); ("spore-print-color", "k")]))) /\
  filter is_network
    (trace (Sample.server_up [("odor", "f"); ("spore-print-color", "k")])
       (handleSubmit None
          (features
             (final (Sample.server_up [("odor", "f"); ("spore-print-color", "k")])
                (handleImageUpload None
                   (features (Sample.state_of Sample.partly_filled))
                   (Some [Sample.photo]))
                (Sample.state_of Sample.partly_filled))))
       (final (Sample.server_up [("odor", "f"); ("spore-print-color", "k")])
          (handleImageUpload None
             (features (Sample.state_of Sample.partly_filled))
             (Some [Sample.photo]))
          (Sample.state_of Sample.partly_filled)))
  = [Ev (axios_post "http://localhost:5000/predict" Sample.filled)].
Proof.
  assert (H : forall k, In k REQUIRED_FEATURES ->
             ~ In (k, "")
                  (entries (mergeDetected
                              (features (Sample.state_of Sample.partly_filled))
                              [("odor", "f"); ("spore-print-color", "k")]))).
  { apply validation_passes_iff. reflexivity. }
  split; [reflexivity |]. split; [exact H |].
  exact (proj2 (upload_then_submit None
                  (Sample.server_up [("odor", "f"); ("spore-print-color", "k")])
                  (Sample.state_of Sample.partly_filled) Sample.photo []
                  _ _ eq_refl eq_refl eq_refl H)).
Defined.

End Scenario.
